(** * The authenticated API client ([ApiService]) of the admin console

    A shallow embedding of [services/api.js]: the session token held by the
    [ApiService] instance, its mirror in [localStorage], the request
    construction of [request], the classification of the [fetch] outcome and
    the catalogue of domain operations built on top of it.

    JavaScript values are embedded as the inductive [value]; numbers are the
    integers (the ids, limits, offsets and status codes the client handles),
    non-integral and non-finite numbers are outside the model, and the
    printing [ToString] is that of JavaScript for the integers of magnitude
    below 10^21 ([prints_decimal]); beyond, JavaScript prints an exponent.  Strings are
    byte strings (the UTF-8 text of the JavaScript string).  Asynchronous
    code is sequential here: every [await] is a bind of the monad [M], a
    rejected promise is a thrown [js_error]. *)

From Stdlib Require Import Ascii String ZArith.
From stdpp Require Import gmap strings list fin_maps pretty.

Open Scope Z_scope.

(** ** JavaScript values *)

#[local] Set Warnings "-register-all".

Inductive value :=
| JUndefined
| JNull
| JBool (b : bool)
| JNum (n : Z)
| JStr (s : string)
| JArr (elts : list value)
| JObj (props : list (string * value)).

(** [Boolean(v)]: what [if (v)] tests. *)
Definition truthy (v : value) : bool :=
  match v with
  | JUndefined | JNull => false
  | JBool b => b
  | JNum n => negb (n =? 0)
  | JStr s => negb (String.eqb s "")
  | JArr _ | JObj _ => true
  end.

Definition join (sep : string) (l : list string) : string :=
  String.concat sep l.

(** [String(v)], the conversion of template literals, of [localStorage.setItem]
    and, on the values that have the method, of [v.toString()]. A number is
    printed as JavaScript prints the integers of magnitude below 10^21; what
    is stated of the numeral of a larger one is stated under
    [prints_decimal]. *)
Fixpoint ToString (v : value) : string :=
  match v with
  | JUndefined => "undefined"
  | JNull => "null"
  | JBool true => "true"
  | JBool false => "false"
  | JNum n => pretty n
  | JStr s => s
  | JArr elts =>
      join "," (map (fun e => match e with
                              | JUndefined | JNull => ""
                              | _ => ToString e
                              end) elts)
  | JObj _ => "[object Object]"
  end.

(** The own property [k] of an object literal (keys are unique, as in an
    object; the first binding is the property). *)
Fixpoint own_property (k : string) (props : list (string * value)) : option value :=
  match props with
  | [] => None
  | (k', v) :: rest => if String.eqb k k' then Some v else own_property k rest
  end.

(** ** Errors *)

Inductive js_error :=
| Error (message : string)          (* new Error(message) *)
| TypeError (message : string)      (* property access on null/undefined *)
| SyntaxError                        (* response.json() on a malformed body *)
| NetworkError (cause : string).     (* fetch() rejected: no response at all *)

Inductive result (A : Type) :=
| Ok (a : A)
| Throw (e : js_error).
Arguments Ok {A} a.
Arguments Throw {A} e.

(** ** Requests and responses *)

Definition API_BASE_URL : string := "/api".

(** The [headers] property of the [options] argument: not an own property
    at all, present but [undefined]/[null], or an object. *)
Inductive headers_prop :=
| HeadersMissing
| HeadersNullish
| HeadersObject (h : gmap string string).

(** The [options] argument of [request]: the properties the client and
    [fetch] look at. *)
Record RequestOptions := {
  opt_method : option string;
  opt_body : option string;
  opt_headers : headers_prop
}.

(** The [config] object handed to [fetch]. [cfg_headers = None] is a
    [headers] property that is [undefined] or [null]. *)
Record RequestConfig := {
  cfg_method : option string;
  cfg_body : option string;
  cfg_headers : option (gmap string string)
}.

(** A [Response]: its status and what [response.json()] resolves to
    ([None]: the body is not JSON and the promise rejects). *)
Record Response := {
  status : Z;
  json : option value
}.

(** [response.ok]: the status is in the range 200-299. *)
Definition ok (r : Response) : bool :=
  (200 <=? status r) && (status r <=? 299).

Inductive fetch_outcome :=
| Rejected (cause : string)
| Resolved (r : Response).

(** What the client does that can be observed from outside. *)
Inductive event :=
| EvFetch (url : string) (config : RequestConfig)
| EvJson (r : Response)
| EvConsoleError (e : js_error).

(** ** State: the service instance, the storage and the trace *)

Record world := {
  token : value;
  localStorage : gmap string string;
  trace : list event
}.

Definition M (A : Type) : Type := world -> result A * world.

Definition ret {A} (a : A) : M A := fun w => (Ok a, w).

Definition bind {A B} (m : M A) (k : A -> M B) : M B :=
  fun w => match m w with
           | (Ok a, w') => k a w'
           | (Throw e, w') => (Throw e, w')
           end.

Definition throw {A} (e : js_error) : M A := fun w => (Throw e, w).

(** [try { m } catch (error) { h error }] *)
Definition try_catch {A} (m : M A) (h : js_error -> M A) : M A :=
  fun w => match m w with
           | (Ok a, w') => (Ok a, w')
           | (Throw e, w') => h e w'
           end.

Notation "'let*' x ':=' m 'in' k" := (bind m (fun x => k))
  (at level 10, x name, m at level 100, k at level 200).
Notation "m ';;;' k" := (bind m (fun _ => k))
  (at level 100, k at level 200, right associativity).

Definition this_token : M value := fun w => (Ok (token w), w).

Definition emit (e : event) : M unit :=
  fun w => (Ok tt, {| token := token w; localStorage := localStorage w;
                      trace := trace w ++ [e] |}).

Definition localStorage_getItem (k : string) (st : gmap string string) : value :=
  match st !! k with
  | Some s => JStr s
  | None => JNull
  end.

(** [localStorage.setItem(k, v)] on a storage with room for the entry; the
    write a full storage refuses is [localStorage_setItem_within]. *)
Definition localStorage_setItem (k : string) (v : value) : M unit :=
  fun w => (Ok tt, {| token := token w;
                      localStorage := <[k := ToString v]> (localStorage w);
                      trace := trace w |}).

Definition localStorage_removeItem (k : string) : M unit :=
  fun w => (Ok tt, {| token := token w;
                      localStorage := delete k (localStorage w);
                      trace := trace w |}).

(** ** [ApiService] *)

(** [constructor()]: a service created over a storage. *)
Definition constructor (st : gmap string string) : world :=
  {| token := localStorage_getItem "authToken" st;
     localStorage := st;
     trace := [] |}.

Definition assign_token (t : value) : M unit :=
  fun w => (Ok tt, {| token := t; localStorage := localStorage w;
                      trace := trace w |}).

Definition setToken (t : value) : M unit :=
  assign_token t;;;
  if truthy t
  then localStorage_setItem "authToken" t
  else localStorage_removeItem "authToken".

(** ** [URLSearchParams]

    The list of name/value pairs and its [application/x-www-form-urlencoded]
    serialisation (URL standard): a space becomes [+], the bytes of
    [A-Z a-z 0-9 * - . _] stand for themselves, every other byte is
    percent-encoded with upper-case hexadecimal digits. *)

Definition hex_digit (n : N) : ascii :=
  ascii_of_N (if (n <? 10)%N then 48 + n else 55 + n)%N.

Definition percent_encode (c : ascii) : string :=
  let n := N_of_ascii c in
  String "%" (String (hex_digit (n / 16)) (String (hex_digit (n mod 16)) "")).

Definition urlencoded_safe (c : ascii) : bool :=
  let n := N_of_ascii c in
  ((48 <=? n) && (n <=? 57) || (65 <=? n) && (n <=? 90) || (97 <=? n) && (n <=? 122)
   || (n =? 42) || (n =? 45) || (n =? 46) || (n =? 95))%N.

Fixpoint urlencoded_string (s : string) : string :=
  match s with
  | EmptyString => ""
  | String c rest =>
      (if Ascii.eqb c " " then "+"
       else if urlencoded_safe c then String c ""
       else percent_encode c) +:+ urlencoded_string rest
  end.


Definition URLSearchParams := list (string * string).

(** [params.append(name, value)] *)
Definition URLSearchParams_append (qp : URLSearchParams) (name v : string)
  : URLSearchParams :=
  qp ++ [(name, v)].

(** [params.toString()] *)
Definition URLSearchParams_toString (qp : URLSearchParams) : string :=
  join "&" (map (fun p => urlencoded_string (fst p) +:+ "=" +:+ urlencoded_string (snd p)) qp).

(** ** The platform: [fetch] and [JSON.stringify]

    The backend and the JSON printer are not part of the client; the
    operations are stated over any behaviour of the two. *)

Section Client.

Variable fetch : string -> RequestConfig -> fetch_outcome.
Variable JSON_stringify : value -> string.

(** [await fetch(url, config)] *)
Definition await_fetch (url : string) (config : RequestConfig) : M Response :=
  emit (EvFetch url config);;;
  match fetch url config with
  | Rejected cause => throw (NetworkError cause)
  | Resolved r => ret r
  end.

(** [await response.json()] *)
Definition await_json (r : Response) : M value :=
  emit (EvJson r);;;
  match json r with
  | Some v => ret v
  | None => throw SyntaxError
  end.

Definition console_error (e : js_error) : M unit := emit (EvConsoleError e).

(** [{ 'Content-Type': 'application/json', ...options.headers }]: the
    caller's entries are spread over the default one. *)
Definition merged_headers (options : RequestOptions) : gmap string string :=
  match opt_headers options with
  | HeadersObject h => h ∪ {[ "Content-Type" := "application/json" ]}
  | HeadersMissing | HeadersNullish => {[ "Content-Type" := "application/json" ]}
  end.

(** [{ headers: merged, ...options }]: every own property of [options]
    replaces the property of the same name written before the spread, so a
    [headers] property of [options] is the [headers] of [config] (the very
    object of the caller; here its contents, and [request_by_reference]
    below for the callers that pass the same object again). *)
Definition spread_options (merged : gmap string string) (options : RequestOptions)
  : RequestConfig :=
  {| cfg_method := opt_method options;
     cfg_body := opt_body options;
     cfg_headers := match opt_headers options with
                    | HeadersMissing => Some merged
                    | HeadersNullish => None
                    | HeadersObject h => Some h
                    end |}.

(** [config.headers.Authorization = v], on the contents of the object; the
    write into the caller's object is that of [request_by_reference]. *)
Definition set_Authorization (v : string) (config : RequestConfig) : M RequestConfig :=
  match cfg_headers config with
  | None => throw (TypeError "Cannot set properties of undefined (setting 'Authorization')")
  | Some h => ret {| cfg_method := cfg_method config;
                     cfg_body := cfg_body config;
                     cfg_headers := Some (<[ "Authorization" := v ]> h) |}
  end.

(** The [try { ... } catch (error) { ... }] block of [request]. *)
Definition send (url : string) (config : RequestConfig) : M value :=
  try_catch
    (let* response := await_fetch url config in
     if negb (ok response)
     then throw (Error ("HTTP error! status: " +:+ ToString (JNum (status response))))
     else await_json response)
    (fun error => console_error error;;; throw error).

Definition request (endpoint : string) (options : RequestOptions) : M value :=
  let url := API_BASE_URL +:+ endpoint in
  let config := spread_options (merged_headers options) options in
  let* t := this_token in
  let* config := (if truthy t
                  then set_Authorization ("Bearer " +:+ ToString t) config
                  else ret config) in
  send url config.

(** [options] literals of the catalogue. *)
Definition no_options : RequestOptions :=
  {| opt_method := None; opt_body := None; opt_headers := HeadersMissing |}.

Definition with_method (m : string) : RequestOptions :=
  {| opt_method := Some m; opt_body := None; opt_headers := HeadersMissing |}.

Definition with_method_body (m : string) (b : string) : RequestOptions :=
  {| opt_method := Some m; opt_body := Some b; opt_headers := HeadersMissing |}.

(** [data.access_token]: a [TypeError] on [null] and [undefined]; no other
    value has a property of that name unless it is an object that owns it. *)
Definition get_access_token (data : value) : M value :=
  match data with
  | JUndefined =>
      throw (TypeError "Cannot read properties of undefined (reading 'access_token')")
  | JNull =>
      throw (TypeError "Cannot read properties of null (reading 'access_token')")
  | JObj props => ret (default JUndefined (own_property "access_token" props))
  | _ => ret JUndefined
  end.

(** *** Auth methods *)

Definition login (username password : value) : M value :=
  let* data := request "/auth/login"
                 (with_method_body "POST"
                    (JSON_stringify (JObj [("username", username);
                                           ("password", password)]))) in
  let* access_token := get_access_token data in
  (if truthy access_token then setToken access_token else ret tt);;;
  ret data.

Definition logout : M unit :=
  request "/auth/logout" (with_method "POST");;;
  setToken JNull.

Definition getCurrentUser : M value :=
  request "/auth/me" no_options.

(** *** User management methods *)

(** [value !== null && value !== undefined && value !== ''] *)
Definition is_filter_value (v : value) : bool :=
  match v with
  | JNull => false
  | JUndefined => false
  | JStr s => negb (String.eqb s "")
  | _ => true
  end.

(** The [forEach] over [Object.entries(params)]: [params] is the list of
    entries in the order [Object.entries] yields them. *)
Definition query_of (params : list (string * value)) : URLSearchParams :=
  fold_left (fun queryParams entry =>
               let '(key, v) := entry in
               if is_filter_value v
               then URLSearchParams_append queryParams key (ToString v)
               else queryParams)
            params [].

Definition getUsers (params : list (string * value)) : M value :=
  let queryParams := query_of params in
  request ("/users/?" +:+ URLSearchParams_toString queryParams) no_options.

Definition createUser (userData : value) : M value :=
  request "/users/" (with_method_body "POST" (JSON_stringify userData)).



Definition updateUserPassword (userId newPassword : value) : M value :=
  request ("/users/" +:+ ToString userId +:+ "/password")
    (with_method_body "PUT"
       (JSON_stringify (JObj [("user_id", userId); ("new_password", newPassword)]))).



Definition deleteUser (userId : value) : M value :=
  request ("/users/" +:+ ToString userId) (with_method "DELETE").

End Client.

(** ** A storage that can refuse a write

    [localStorage.setItem] throws a [QuotaExceededError] when the browser
    does not accept the content the write would give; [localStorage_setItem]
    above is the write on a storage with room. [has_room] says which
    contents the browser accepts, and [setToken] and [login] are read again
    over such a storage. *)

Section StorageQuota.

Variable has_room : gmap string string -> bool.
Variable QuotaExceededError : js_error.

Definition localStorage_setItem_within (k : string) (v : value) : M unit :=
  fun w =>
    let written := <[k := ToString v]> (localStorage w) in
    if has_room written
    then (Ok tt, {| token := token w; localStorage := written; trace := trace w |})
    else (Throw QuotaExceededError, w).

Definition setToken_within (t : value) : M unit :=
  assign_token t;;;
  if truthy t
  then localStorage_setItem_within "authToken" t
  else localStorage_removeItem "authToken".

Variable fetch : string -> RequestConfig -> fetch_outcome.
Variable JSON_stringify : value -> string.


End StorageQuota.

(** ** Vocabulary of the properties *)

(** The session: the token in memory and the storage. *)
Definition same_session (w w' : world) : Prop :=
  token w' = token w /\ localStorage w' = localStorage w.

Definition preserves_session {A} (m : M A) : Prop :=
  forall w, same_session w (snd (m w)).

(** The session is absent: no token in memory, no entry in the storage. *)
Definition session_absent (w : world) : Prop :=
  token w = JNull /\ localStorage w !! "authToken" = None.

(** The world after some more events were observed. *)
Definition observed (w : world) (evs : list event) : world :=
  {| token := token w; localStorage := localStorage w; trace := trace w ++ evs |}.

(** The calls of [fetch] recorded in a trace, in order. *)
Definition fetch_calls (tr : list event) : list (string * RequestConfig) :=
  omap (fun e => match e with
                 | EvFetch url config => Some (url, config)
                 | _ => None
                 end) tr.

(** The responses whose body was read with [json()]. *)
Definition json_reads (tr : list event) : list Response :=
  omap (fun e => match e with
                 | EvJson r => Some r
                 | _ => None
                 end) tr.

Definition embeds (needle hay : string) : Prop :=
  exists pre post, hay = pre +:+ needle +:+ post.

(** The [Authorization] entry of the headers of a [config]. *)
Definition Authorization_of (config : RequestConfig) : option string :=
  cfg_headers config ≫= (fun h => h !! "Authorization").

Definition Content_Type_of (config : RequestConfig) : option string :=
  cfg_headers config ≫= (fun h => h !! "Content-Type").

(** The [Authorization] entry the caller put in [options.headers]. *)
Definition caller_Authorization (options : RequestOptions) : option string :=
  match opt_headers options with
  | HeadersObject h => h !! "Authorization"
  | HeadersMissing | HeadersNullish => None
  end.

(** A client that makes the requests [reqs] one after the other, whatever
    the outcome of each. *)
Fixpoint requests (fetch : string -> RequestConfig -> fetch_outcome)
    (reqs : list (string * RequestOptions)) (w : world) : world :=
  match reqs with
  | [] => w
  | (endpoint, options) :: rest =>
      requests fetch rest (snd (request fetch endpoint options w))
  end.

(** *** Callers that keep their [headers] object

    [config.headers] is the caller's own object when [options] has one, and
    the assignment of [Authorization] is written into it: a caller who passes
    the same object again passes what [request] wrote. The objects of the
    callers live in a store, [options] name them by their place, and a
    request is [request] on what the object holds, followed by the write. *)

Inductive headers_ref :=
| RefMissing
| RefNullish
| RefObject (place : nat).

Record SharedOptions := {
  ref_method : option string;
  ref_body : option string;
  ref_headers : headers_ref
}.

(** The [options] as they read when the call is made. *)
Definition options_at (objects : gmap nat (gmap string string)) (o : SharedOptions)
  : RequestOptions :=
  {| opt_method := ref_method o;
     opt_body := ref_body o;
     opt_headers := match ref_headers o with
                    | RefMissing => HeadersMissing
                    | RefNullish => HeadersNullish
                    | RefObject place => HeadersObject (default ∅ (objects !! place))
                    end |}.

Definition request_by_reference (fetch : string -> RequestConfig -> fetch_outcome)
    (endpoint : string) (o : SharedOptions)
    (objects : gmap nat (gmap string string)) (w : world)
  : result value * gmap nat (gmap string string) * world :=
  let (res, w') := request fetch endpoint (options_at objects o) w in
  let written :=
    match ref_headers o with
    | RefObject place =>
        if truthy (token w)
        then <[place := <[ "Authorization" := "Bearer " +:+ ToString (token w) ]>
                          (default ∅ (objects !! place))]> objects
        else objects
    | RefMissing | RefNullish => objects
    end in
  (res, written, w').

Fixpoint requests_by_reference (fetch : string -> RequestConfig -> fetch_outcome)
    (reqs : list (string * SharedOptions))
    (objects : gmap nat (gmap string string)) (w : world)
  : gmap nat (gmap string string) * world :=
  match reqs with
  | [] => (objects, w)
  | (endpoint, o) :: rest =>
      let '(_, written, w') := request_by_reference fetch endpoint o objects w in
      requests_by_reference fetch rest written w'
  end.

(** A reachable backend that answers every call with [r]. *)
Definition backend_replies (r : Response) : string -> RequestConfig -> fetch_outcome :=
  fun _ _ => Resolved r.

(** An unreachable backend: every call is rejected. *)
Definition backend_down (cause : string) : string -> RequestConfig -> fetch_outcome :=
  fun _ _ => Rejected cause.





(** The errors written with [console.error]. *)
Definition console_errors (tr : list event) : list js_error :=
  omap (fun e => match e with
                 | EvConsoleError err => Some err
                 | _ => None
                 end) tr.

(** Running [m] from [w] hands exactly one more request to [fetch]: [url],
    with the given method and body, the JSON content type and the bearer
    token [w] holds, if it holds one. *)
Definition issues_one {A} (m : M A) (w : world) (url : string)
    (method body : option string) : Prop :=
  exists cfg,
    fetch_calls (trace (snd (m w))) = fetch_calls (trace w) ++ [(url, cfg)]
    /\ cfg_method cfg = method
    /\ cfg_body cfg = body
    /\ Content_Type_of cfg = Some "application/json"
    /\ Authorization_of cfg
       = if truthy (token w) then Some ("Bearer " +:+ ToString (token w)) else None.

(** The number of occurrences of [c] in [s]. *)
Fixpoint count_char (c : ascii) (s : string) : nat :=
  match s with
  | EmptyString => 0
  | String c' rest => (if Ascii.eqb c c' then 1 else 0) + count_char c rest
  end.

(** ** The components that call the service

    The handlers of the React components, as functions of the component's
    state at the render that created them (the values their closures hold),
    of the service and of what the user is shown. A handler's state updates
    are applied in the order it makes them; what is rendered in between is
    not modelled. *)

(** [data.k], for a name [k] that no prototype defines. *)
Definition get_property (k : string) (data : value) : result value :=
  match data with
  | JUndefined =>
      Throw (TypeError ("Cannot read properties of undefined (reading '" +:+ k +:+ "')"))
  | JNull =>
      Throw (TypeError ("Cannot read properties of null (reading '" +:+ k +:+ "')"))
  | JObj props => Ok (default JUndefined (own_property k props))
  | _ => Ok JUndefined
  end.

(** [{ ...props, [k]: v }]: the property is replaced where it stands, or
    added last. *)
Fixpoint set_property (k : string) (v : value) (props : list (string * value))
  : list (string * value) :=
  match props with
  | [] => [(k, v)]
  | (k', v') :: rest =>
      if String.eqb k k' then (k, v) :: rest else (k', v') :: set_property k v rest
  end.

(** [s.length]: the UTF-16 code units of the text whose UTF-8 bytes are [s]
    (one per character, two for those outside the basic plane). *)
Fixpoint String_length (s : string) : nat :=
  match s with
  | EmptyString => 0
  | String c rest =>
      (let n := N_of_ascii c in
       if (n <? 128)%N then 1
       else if (n <? 192)%N then 0
       else if (n <? 240)%N then 1
       else 2) + String_length rest
  end.

(** [err.message]; the text of the [SyntaxError] of [json()] is the
    engine's. *)
Definition message_of (syntax_message : string) (err : js_error) : string :=
  match err with
  | Error m => m
  | TypeError m => m
  | SyntaxError => syntax_message
  | NetworkError cause => cause
  end.

(** What a handler shows or calls besides the service. *)
Inductive ui_event :=
| UiAlert (message : string)        (* alert(message) *)
| UiConfirm (message : string)      (* window.confirm(message) *)
| UiCall (prop : string).           (* a callback prop: onUserCreated(), onUserUpdate() *)

Record page (S : Type) := {
  comp : S;
  shown : list ui_event;
  svc : world
}.
Arguments comp {S} p.
Arguments shown {S} p.
Arguments svc {S} p.

Definition H (S A : Type) : Type := page S -> result A * page S.

#[export] Instance H_ret S : MRet (H S) := fun A a p => (Ok a, p).

#[export] Instance H_bind S : MBind (H S) := fun A B k m p =>
  match m p with
  | (Ok a, p') => k a p'
  | (Throw e, p') => (Throw e, p')
  end.

(** [await m], [m] an operation of the service. *)
Definition call {S A} (m : M A) : H S A :=
  fun p => let (r, w') := m (svc p) in
           (r, {| comp := comp p; shown := shown p; svc := w' |}).

(** A state setter applied to an updater. *)
Definition set_state {S} (f : S -> S) : H S unit :=
  fun p => (Ok tt, {| comp := f (comp p); shown := shown p; svc := svc p |}).

Definition show {S} (e : ui_event) : H S unit :=
  fun p => (Ok tt, {| comp := comp p; shown := shown p ++ [e]; svc := svc p |}).

Definition of_result {S A} (r : result A) : H S A := fun p => (r, p).

(** [try { body } catch (err) { handler err } finally { final }] *)
Definition try_catch_finally {S A} (body : H S A) (handler : js_error -> H S A)
    (final : H S unit) : H S A :=
  fun p =>
    let (r, p1) := match body p with
                   | (Ok a, p1) => (Ok a, p1)
                   | (Throw e, p1) => handler e p1
                   end in
    match final p1 with
    | (Ok _, p2) => (r, p2)
    | (Throw e, p2) => (Throw e, p2)
    end.

Module UserList.

Record state := {
  users : value;
  loading : bool;
  error : string;
  filters : list (string * value)
}.

Definition initial : state :=
  {| users := JArr []; loading := true; error := "";
     filters := [("is_active", JStr ""); ("role", JStr ""); ("limit", JNum 50);
                 ("offset", JNum 0)] |}.

Definition setUsers (v : value) (st : state) : state :=
  {| users := v; loading := loading st; error := error st; filters := filters st |}.

Definition setLoading (b : bool) (st : state) : state :=
  {| users := users st; loading := b; error := error st; filters := filters st |}.

Definition setError (m : string) (st : state) : state :=
  {| users := users st; loading := loading st; error := m; filters := filters st |}.

Definition setFilters (f : list (string * value) -> list (string * value))
    (st : state) : state :=
  {| users := users st; loading := loading st; error := error st;
     filters := f (filters st) |}.

(** [setFilters(prev => ({ ...prev, [key]: value, offset: 0 }))] *)
Definition handleFilterChange (key : string) (v : value) : state -> state :=
  setFilters (fun prev => set_property "offset" (JNum 0) (set_property key v prev)).

Section Handlers.
Variable fetch : string -> RequestConfig -> fetch_outcome.

Definition loadUsers : H state unit :=
  fun p =>
    let current := filters (comp p) in
    try_catch_finally
      (set_state (setLoading true);;
       data ← call (getUsers fetch current);
       listed ← of_result (get_property "users" data);
       set_state (setUsers listed))
      (fun err =>
         set_state (setError "Failed to load users");;
         call (console_error err))
      (set_state (setLoading false))
      p.
End Handlers.

End UserList.

Module UserForm.

Record state := {
  formData : list (string * value);
  loading : bool;
  error : string
}.

Definition blank : list (string * value) :=
  [("username", JStr ""); ("password", JStr ""); ("role", JStr "USER")].

Definition initial : state :=
  {| formData := blank; loading := false; error := "" |}.

Definition setFormData (f : list (string * value) -> list (string * value))
    (st : state) : state :=
  {| formData := f (formData st); loading := loading st; error := error st |}.

Definition setLoading (b : bool) (st : state) : state :=
  {| formData := formData st; loading := b; error := error st |}.

Definition setError (m : string) (st : state) : state :=
  {| formData := formData st; loading := loading st; error := m |}.

(** [setFormData(prev => ({ ...prev, [e.target.name]: e.target.value }))] *)
Definition handleChange (name v : string) : state -> state :=
  setFormData (fun prev => set_property name (JStr v) prev).

Section Handlers.
Variable fetch : string -> RequestConfig -> fetch_outcome.
Variable JSON_stringify : value -> string.
Variable syntax_message : string.

Definition handleSubmit : H state unit :=
  fun p =>
    let data := formData (comp p) in
    (set_state (setLoading true);;
     set_state (setError "");;
     try_catch_finally
       (call (createUser fetch JSON_stringify (JObj data));;
        set_state (setFormData (fun _ => blank));;
        show (UiCall "onUserCreated");;
        show (UiAlert "User created successfully"))
       (fun err =>
          set_state (setError ("Failed to create user: "
                               +:+ message_of syntax_message err)))
       (set_state (setLoading false)))
      p.
End Handlers.

End UserForm.

Module UserActions.

(** The user of the row: the fields the component reads. *)
Record User := {
  id : value;
  username : value;
  role : value;
  is_active : value
}.

Record state := {
  loading : bool;
  showPasswordModal : bool;
  showRoleModal : bool;
  newPassword : string;
  newRole : value
}.

Definition initial (user : User) : state :=
  {| loading := false; showPasswordModal := false; showRoleModal := false;
     newPassword := ""; newRole := role user |}.

Definition setLoading (b : bool) (st : state) : state :=
  {| loading := b; showPasswordModal := showPasswordModal st;
     showRoleModal := showRoleModal st; newPassword := newPassword st;
     newRole := newRole st |}.

Definition setShowPasswordModal (b : bool) (st : state) : state :=
  {| loading := loading st; showPasswordModal := b;
     showRoleModal := showRoleModal st; newPassword := newPassword st;
     newRole := newRole st |}.


Definition setNewPassword (s : string) (st : state) : state :=
  {| loading := loading st; showPasswordModal := showPasswordModal st;
     showRoleModal := showRoleModal st; newPassword := s; newRole := newRole st |}.

Definition setNewRole (v : value) (st : state) : state :=
  {| loading := loading st; showPasswordModal := showPasswordModal st;
     showRoleModal := showRoleModal st; newPassword := newPassword st; newRole := v |}.

Section Handlers.
Variable fetch : string -> RequestConfig -> fetch_outcome.
Variable JSON_stringify : value -> string.
(** The answer of the user to [window.confirm]. *)
Variable confirm : string -> bool.
Variable user : User.



Definition handleDelete : H state unit :=
  let question := "Are you sure you want to delete user "
                  +:+ ToString (username user) +:+ "?" in
  show (UiConfirm question);;
  if negb (confirm question) then mret tt
  else
    set_state (setLoading true);;
    try_catch_finally
      (call (deleteUser fetch (id user));;
       show (UiCall "onUserUpdate"))
      (fun _ => show (UiAlert "Failed to delete user"))
      (set_state (setLoading false)).

Definition handlePasswordChange : H state unit :=
  fun p =>
    let password := newPassword (comp p) in
    (if String.eqb password "" || (String_length password <? 6)%nat
     then show (UiAlert "Password must be at least 6 characters long")
     else
       set_state (setLoading true);;
       try_catch_finally
         (call (updateUserPassword fetch JSON_stringify (id user) (JStr password));;
          set_state (setShowPasswordModal false);;
          set_state (setNewPassword "");;
          show (UiAlert "Password updated successfully"))
         (fun _ => show (UiAlert "Failed to update password"))
         (set_state (setLoading false)))
      p.

End Handlers.

End UserActions.

Module Login.

Record state := {
  credentials : list (string * value);
  loading : bool;
  error : value
}.

Definition initial : state :=
  {| credentials := [("username", JStr ""); ("password", JStr "")];
     loading := false; error := JStr "" |}.

Definition setCredentials (f : list (string * value) -> list (string * value))
    (st : state) : state :=
  {| credentials := f (credentials st); loading := loading st; error := error st |}.

Definition setLoading (b : bool) (st : state) : state :=
  {| credentials := credentials st; loading := b; error := error st |}.

Definition setError (v : value) (st : state) : state :=
  {| credentials := credentials st; loading := loading st; error := v |}.

(** [setCredentials(prev => ({ ...prev, [e.target.name]: e.target.value }))] *)
Definition handleChange (name v : string) : state -> state :=
  setCredentials (fun prev => set_property name (JStr v) prev).

Section Handlers.
(** The [onLogin] prop: the [login] of the authentication hook. *)
Variable onLogin : value -> value -> M value.

Definition handleSubmit : H state unit :=
  fun p =>
    let creds := credentials (comp p) in
    (set_state (setLoading true);;
     set_state (setError (JStr ""));;
     result ← call (onLogin (default JUndefined (own_property "username" creds))
                            (default JUndefined (own_property "password" creds)));
     success ← of_result (get_property "success" result);
     (if negb (truthy success)
      then
        reason ← of_result (get_property "error" result);
        set_state (setError (if truthy reason then reason else JStr "Login failed"))
      else mret tt);;
     set_state (setLoading false))
      p.
End Handlers.

End Login.

(** ** Properties *)

Ltac run_M :=
  unfold setToken, assign_token, localStorage_setItem, localStorage_removeItem,
    bind, ret, throw in *; simpl in *.

Lemma fetch_calls_app tr1 tr2 :
  fetch_calls (tr1 ++ tr2) = fetch_calls tr1 ++ fetch_calls tr2.
Proof. apply omap_app. Qed.

Lemma json_reads_app tr1 tr2 :
  json_reads (tr1 ++ tr2) = json_reads tr1 ++ json_reads tr2.
Proof. apply omap_app. Qed.

Lemma observed_session w evs : same_session w (observed w evs).
Proof. done. Qed.

(** The four ways out of the [try] block. *)
Lemma send_runs fetch url config w :
  send fetch url config w =
  match fetch url config with
  | Rejected cause =>
      (Throw (NetworkError cause),
       observed w [EvFetch url config; EvConsoleError (NetworkError cause)])
  | Resolved r =>
      if ok r then
        match json r with
        | Some v => (Ok v, observed w [EvFetch url config; EvJson r])
        | None => (Throw SyntaxError,
                   observed w [EvFetch url config; EvJson r; EvConsoleError SyntaxError])
        end
      else
        let e := Error ("HTTP error! status: " +:+ ToString (JNum (status r))) in
        (Throw e, observed w [EvFetch url config; EvConsoleError e])
  end.
Proof.
  unfold send, try_catch, bind, await_fetch, await_json, console_error, emit,
    throw, ret, observed. simpl.
  destruct (fetch url config) as [cause | r]; simpl.
  - by rewrite <- app_assoc.
  - destruct (ok r); simpl.
    + destruct (json r); simpl; by rewrite <- !app_assoc.
    + by rewrite <- app_assoc.
Qed.

Lemma send_observed fetch url config w :
  exists rest,
    snd (send fetch url config w) = observed w (EvFetch url config :: rest)
    /\ fetch_calls rest = [].
Proof.
  rewrite send_runs.
  destruct (fetch url config) as [cause | r]; simpl; [by eexists |].
  destruct (ok r); simpl; [| by eexists].
  destruct (json r); by eexists.
Qed.

Lemma send_session fetch url config : preserves_session (send fetch url config).
Proof.
  intros w. destruct (send_observed fetch url config w) as (rest & -> & _).
  apply observed_session.
Qed.

(** [request] is [send] on the built [config], unless the assignment of
    [Authorization] hits a [headers] that is not an object. *)
Lemma request_runs fetch endpoint options w :
  request fetch endpoint options w =
  let config := spread_options (merged_headers options) options in
  if truthy (token w) then
    match cfg_headers config with
    | None =>
        (Throw (TypeError "Cannot set properties of undefined (setting 'Authorization')"), w)
    | Some h =>
        send fetch (API_BASE_URL +:+ endpoint)
          {| cfg_method := cfg_method config; cfg_body := cfg_body config;
             cfg_headers := Some (<[ "Authorization" := "Bearer " +:+ ToString (token w) ]> h) |}
          w
    end
  else send fetch (API_BASE_URL +:+ endpoint) config w.
Proof.
  unfold request, bind, this_token, set_Authorization, throw, ret. simpl.
  destruct (truthy (token w)); [| done].
  by destruct (opt_headers options).
Qed.

Lemma request_session fetch endpoint options :
  preserves_session (request fetch endpoint options).
Proof.
  intros w. rewrite request_runs. simpl.
  destruct (truthy (token w)); [| apply send_session].
  destruct (opt_headers options); simpl; try apply send_session. done.
Qed.

(** The one call of [fetch] a request makes, and its [config]. *)
Lemma request_observed fetch endpoint options w :
  (opt_headers options = HeadersNullish -> truthy (token w) = false) ->
  exists cfg rest,
    snd (request fetch endpoint options w)
    = observed w (EvFetch (API_BASE_URL +:+ endpoint) cfg :: rest)
    /\ fetch_calls rest = []
    /\ cfg_method cfg = opt_method options
    /\ cfg_body cfg = opt_body options
    /\ cfg_headers cfg
       = (if truthy (token w)
          then insert "Authorization" ("Bearer " +:+ ToString (token w))
          else id)
         <$> cfg_headers (spread_options (merged_headers options) options).
Proof.
  intros Hh. rewrite request_runs. cbv zeta.
  destruct (truthy (token w)) eqn:Ht.
  - destruct (cfg_headers (spread_options (merged_headers options) options))
      as [h |] eqn:Hc.
    + match goal with |- context [send fetch ?u ?c w] =>
        destruct (send_observed fetch u c w) as (rest & -> & Hrest) end.
      by eexists _, rest.
    + simpl in Hc. destruct (opt_headers options); try discriminate Hc.
      by specialize (Hh eq_refl).
  - destruct (send_observed fetch (API_BASE_URL +:+ endpoint)
                (spread_options (merged_headers options) options) w)
      as (rest & -> & Hrest).
    eexists _, rest. repeat split; [done |].
    by destruct (cfg_headers _).
Qed.

Lemma observed_fetch_calls w url cfg rest :
  fetch_calls rest = [] ->
  fetch_calls (trace (observed w (EvFetch url cfg :: rest)))
  = fetch_calls (trace w) ++ [(url, cfg)].
Proof. intros Hrest. simpl. rewrite fetch_calls_app. simpl. by rewrite Hrest. Qed.

(** *** [setToken] and the constructor *)

Lemma setToken_runs t w :
  setToken t w =
  (Ok tt, {| token := t;
             localStorage := if truthy t
                             then <[ "authToken" := ToString t ]> (localStorage w)
                             else delete "authToken" (localStorage w);
             trace := trace w |}).
Proof. run_M. by destruct (truthy t). Qed.

Lemma truthy_JStr s : truthy (JStr s) = true <-> s ≠ "".
Proof.
  simpl. rewrite negb_true_iff. split.
  - intros H ->. by rewrite String.eqb_refl in H.
  - intros H. by apply String.eqb_neq.
Qed.

(** C7, as stated, fails at the empty string: the field holds [''] while the
    storage entry is removed, so a fresh service reads [null]. *)
Lemma setToken_empty_string_not_restored :
  let w' := snd (setToken (JStr "") (constructor ∅)) in
  ~ (token w' = JStr "" /\ token (constructor (localStorage w')) = JStr "").
Proof. simpl. intros [_ H]. vm_compute in H. discriminate H. Qed.

Lemma setToken_within_runs has_room QuotaExceededError t w :
  setToken_within has_room QuotaExceededError t w =
  if truthy t
  then if has_room (<[ "authToken" := ToString t ]> (localStorage w))
       then (Ok tt, {| token := t;
                       localStorage := <[ "authToken" := ToString t ]> (localStorage w);
                       trace := trace w |})
       else (Throw QuotaExceededError,
             {| token := t; localStorage := localStorage w; trace := trace w |})
  else (Ok tt, {| token := t; localStorage := delete "authToken" (localStorage w);
                  trace := trace w |}).
Proof.
  unfold setToken_within, bind, assign_token, localStorage_setItem_within,
    localStorage_removeItem. simpl.
  destruct (truthy t); [| done]. by destruct (has_room _).
Qed.

(** On a storage that accepts every write, [setToken] is [setToken_within]. *)
Lemma setToken_with_room QuotaExceededError t w :
  setToken_within (fun _ => true) QuotaExceededError t w = setToken t w.
Proof. rewrite setToken_within_runs, setToken_runs. by destruct (truthy t). Qed.

(** C7 (amended): for every non-empty token string and for [null], whenever
    [setToken] completes the field holds exactly that value, the storage
    entry was written or removed in the same call, and a service constructed
    afresh over the storage reads the same value back; it completes for
    [null] always, and for a string whenever the storage accepts the
    write. *)
Theorem setToken_round_trip has_room QuotaExceededError (t : value) (w : world) :
  (t = JNull \/ exists s, t = JStr s /\ s ≠ "") ->
  let (res, w') := setToken_within has_room QuotaExceededError t w in
  (res = Ok tt ->
   token w' = t
   /\ localStorage_getItem "authToken" (localStorage w') = t
   /\ token (constructor (localStorage w')) = t)
  /\ (t = JNull \/ has_room (<[ "authToken" := ToString t ]> (localStorage w)) = true ->
      res = Ok tt).
Proof.
  intros Ht. rewrite setToken_within_runs.
  destruct Ht as [-> | (s & -> & Hs)].
  - simpl. unfold localStorage_getItem. rewrite lookup_delete_eq. done.
  - apply truthy_JStr in Hs. rewrite Hs.
    destruct (has_room _); simpl.
    + unfold localStorage_getItem. rewrite lookup_insert_eq. done.
    + split; [discriminate |]. intros [[=] | [=]].
Qed.

Lemma setToken_round_trip_witness :
  let (res, w') := setToken_within (fun _ => true) (Error "QuotaExceededError")
                     (JStr "abc") (constructor ∅) in
  res = Ok tt
  /\ token w' = JStr "abc"
  /\ localStorage_getItem "authToken" (localStorage w') = JStr "abc"
  /\ token (constructor (localStorage w')) = JStr "abc".
Proof.
  pose proof (setToken_round_trip (fun _ => true) (Error "QuotaExceededError")
                (JStr "abc") (constructor ∅)) as H.
  destruct (setToken_within _ _ _ _) as [res w'].
  destruct H as [Hagree Hdone].
  - right. exists "abc". split; [reflexivity | discriminate].
  - assert (Hres : res = Ok tt) by (apply Hdone; right; reflexivity).
    split; [exact Hres | exact (Hagree Hres)].
Defined.

(** The write refused: [setToken] throws after the field was assigned. *)
Example setToken_storage_full :
  setToken_within (fun _ => false) (Error "QuotaExceededError") (JStr "abc")
    (constructor ∅)
  = (Throw (Error "QuotaExceededError"),
     {| token := JStr "abc"; localStorage := ∅; trace := [] |}).
Proof. reflexivity. Qed.

(** *** [logout] *)

(** C1, as stated, fails when the backend cannot be reached: the token and
    the storage entry are still there after [logout]. *)
Lemma logout_backend_down_keeps_token :
  let (res, w') := logout (backend_down "offline")
                     (constructor {[ "authToken" := "abc" ]}) in
  res = Throw (NetworkError "offline")
  /\ token w' = JStr "abc"
  /\ localStorage w' !! "authToken" = Some "abc"
  /\ ~ session_absent w'.
Proof.
  vm_compute. repeat split; try reflexivity. intros [H _]. discriminate H.
Qed.

(** What [logout] does with the outcome of its request. *)
Lemma logout_runs fetch w :
  logout fetch w =
  match request fetch "/auth/logout" (with_method "POST") w with
  | (Ok _, w1) => setToken JNull w1
  | (Throw e, w1) => (Throw e, w1)
  end.
Proof. done. Qed.


(** C1 (amended): [logout] issues one POST to the logout endpoint, without a
    body; when that request succeeds, [logout] completes and the token and
    the storage entry are gone; when it fails, [logout] fails with the same
    error and the session is as it was. *)
Theorem logout_clears_after_request fetch w :
  let (res, w') := logout fetch w in
  (exists cfg,
      fetch_calls (trace w')
      = fetch_calls (trace w) ++ [(API_BASE_URL +:+ "/auth/logout", cfg)]
      /\ cfg_method cfg = Some "POST" /\ cfg_body cfg = None)
  /\ match fst (request fetch "/auth/logout" (with_method "POST") w) with
     | Ok _ => res = Ok tt /\ session_absent w'
     | Throw e => res = Throw e /\ same_session w w'
     end.
Proof.
  rewrite logout_runs.
  pose proof (request_session fetch "/auth/logout" (with_method "POST") w) as Hs.
  destruct (request_observed fetch "/auth/logout" (with_method "POST") w)
    as (cfg & rest & Hw & Hrest & Hm & Hb & _); [done |].
  destruct (request _ _ _ _) as [[v | e] w1]; cbn [fst snd] in *; subst w1.
  - rewrite setToken_runs. cbn [truthy]. split.
    + exists cfg. split; [| done].
      by apply (observed_fetch_calls w).
    + split; [done |]. split; [done | apply lookup_delete_eq].
  - split; [| done].
    exists cfg. split; [by apply observed_fetch_calls | done].
Qed.

(** *** The request handed to [fetch] *)

(** C2, on the code: a caller who passes extra headers that do not name
    [Content-Type] gets a request without it; the [headers] of [options]
    replaces the merged object. *)
Theorem request_extra_headers_lose_content_type :
  let options := {| opt_method := None; opt_body := None;
                    opt_headers := HeadersObject {[ "X-Request-Id" := "7" ]} |} in
  let backend := backend_replies {| status := 200; json := Some JNull |} in
  exists cfg,
    fetch_calls (trace (snd (request backend "/users/" options (constructor ∅))))
    = [("/api/users/", cfg)]
    /\ cfg_headers cfg = Some {[ "X-Request-Id" := "7" ]}
    /\ Content_Type_of cfg = None.
Proof. simpl. eexists. split; [reflexivity |]. split; [reflexivity |]. by vm_compute. Qed.

(** C3: with a non-empty token [t] in the session, and whatever headers the
    caller supplies (none, or any mapping, also one with its own
    [Authorization]), the one request handed to [fetch] carries
    [Authorization: Bearer t]. *)
Theorem request_Authorization_is_bearer_token fetch endpoint options (t : string) w :
  token w = JStr t ->
  t ≠ "" ->
  opt_headers options ≠ HeadersNullish ->
  exists cfg,
    fetch_calls (trace (snd (request fetch endpoint options w)))
    = fetch_calls (trace w) ++ [(API_BASE_URL +:+ endpoint, cfg)]
    /\ Authorization_of cfg = Some ("Bearer " +:+ t).
Proof.
  intros Ht Hne Hh.
  destruct (request_observed fetch endpoint options w)
    as (cfg & rest & -> & Hrest & _ & _ & Hcfg); [done |].
  exists cfg. split; [by apply observed_fetch_calls |].
  unfold Authorization_of. rewrite Hcfg, Ht.
  apply truthy_JStr in Hne. rewrite Hne. simpl.
  destruct (opt_headers options); [| done |]; simpl; apply lookup_insert_eq.
Qed.

Lemma request_Authorization_is_bearer_token_witness :
  let options := {| opt_method := Some "GET"; opt_body := None;
                    opt_headers := HeadersObject {[ "Authorization" := "Basic Zm9v" ]} |} in
  let w := constructor {[ "authToken" := "abc" ]} in
  exists cfg,
    fetch_calls (trace (snd (request (backend_down "offline") "/auth/me" options w)))
    = fetch_calls (trace w) ++ [(API_BASE_URL +:+ "/auth/me", cfg)]
    /\ Authorization_of cfg = Some ("Bearer " +:+ "abc").
Proof.
  apply (request_Authorization_is_bearer_token (backend_down "offline") "/auth/me"
           {| opt_method := Some "GET"; opt_body := None;
              opt_headers := HeadersObject {[ "Authorization" := "Basic Zm9v" ]} |}
           "abc" (constructor {[ "authToken" := "abc" ]})).
  - reflexivity.
  - discriminate.
  - discriminate.
Defined.

(** *** Error statuses *)

Lemma string_app_nil_r (s : string) : s +:+ "" = s.
Proof.
  induction s as [| a s IH]; [done |].
  change (String a (s +:+ "") = String a s). by rewrite IH.
Qed.

Lemma ok_false_iff r : ok r = false <-> (status r < 200 \/ 300 <= status r).
Proof.
  unfold ok. rewrite andb_false_iff, !Z.leb_gt. lia.
Qed.

Lemma send_error_status fetch url config w r :
  fetch url config = Resolved r ->
  ok r = false ->
  let e := Error ("HTTP error! status: " +:+ pretty (status r)) in
  send fetch url config w
  = (Throw e, observed w [EvFetch url config; EvConsoleError e]).
Proof. intros Hf Hok. rewrite send_runs, Hf, Hok. done. Qed.

(** C6: whenever the call [request] makes to [fetch] is answered with a
    status below 200 or at or above 300, [request] fails with the error whose
    message is [HTTP error! status: ] followed by the status in decimal, and
    [json()] is not called on the response, whatever its body. *)
Theorem request_fails_on_error_status fetch endpoint options w url cfg r :
  let (res, w') := request fetch endpoint options w in
  fetch_calls (trace w') = fetch_calls (trace w) ++ [(url, cfg)] ->
  fetch url cfg = Resolved r ->
  status r < 200 \/ 300 <= status r ->
  res = Throw (Error ("HTTP error! status: " +:+ pretty (status r)))
  /\ embeds (pretty (status r)) ("HTTP error! status: " +:+ pretty (status r))
  /\ json_reads (trace w') = json_reads (trace w).
Proof.
  assert (Hsend : forall u c,
            let (res, w') := send fetch u c w in
            fetch_calls (trace w') = fetch_calls (trace w) ++ [(url, cfg)] ->
            fetch url cfg = Resolved r ->
            status r < 200 \/ 300 <= status r ->
            res = Throw (Error ("HTTP error! status: " +:+ pretty (status r)))
            /\ embeds (pretty (status r)) ("HTTP error! status: " +:+ pretty (status r))
            /\ json_reads (trace w') = json_reads (trace w)).
  { intros u c.
    destruct (send_observed fetch u c w) as (rest & Hw & Hrest).
    destruct (send fetch u c w) as [res w'] eqn:Hrun. simpl in Hw. subst w'.
    intros Hcalls Hf Hst.
    rewrite observed_fetch_calls in Hcalls by done.
    apply app_inv_head in Hcalls. injection Hcalls as -> ->.
    apply ok_false_iff in Hst.
    rewrite (send_error_status _ _ _ _ _ Hf Hst) in Hrun.
    injection Hrun as <- Hobs.
    split; [done |]. split.
    - exists "HTTP error! status: ", "". by rewrite string_app_nil_r.
    - apply app_inv_head in Hobs. injection Hobs as <-.
      simpl. rewrite json_reads_app. simpl. by rewrite app_nil_r. }
  rewrite request_runs. cbv zeta.
  destruct (truthy (token w)); [| apply Hsend].
  destruct (cfg_headers _); [apply Hsend |].
  intros Hcalls. apply (f_equal length) in Hcalls.
  rewrite length_app in Hcalls. simpl in Hcalls. lia.
Qed.

Lemma request_fails_on_error_status_witness :
  let backend := backend_replies
                   {| status := 404; json := Some (JObj [("detail", JStr "Not Found")]) |} in
  let w := constructor {[ "authToken" := "abc" ]} in
  let (res, w') := request backend "/users/7" no_options w in
  res = Throw (Error "HTTP error! status: 404")
  /\ json_reads (trace w') = [].
Proof.
  pose proof (request_fails_on_error_status
                (backend_replies
                   {| status := 404; json := Some (JObj [("detail", JStr "Not Found")]) |})
                "/users/7" no_options (constructor {[ "authToken" := "abc" ]})
                "/api/users/7"
                {| cfg_method := None; cfg_body := None;
                   cfg_headers := Some (<[ "Authorization" := "Bearer abc" ]>
                                          {[ "Content-Type" := "application/json" ]}) |}
                {| status := 404; json := Some (JObj [("detail", JStr "Not Found")]) |})
    as H.
  destruct (request _ _ _ _) as [res w'] eqn:Hrun.
  vm_compute in Hrun. injection Hrun as <- <-.
  destruct H as (Hres & _ & Hjson).
  - reflexivity.
  - reflexivity.
  - right. simpl. lia.
  - split; [exact Hres | exact Hjson].
Defined.

(** *** [login] *)

(** A request of the catalogue (no [headers] in its options) always reaches
    [fetch]. *)
Lemma request_catalogue fetch endpoint options w :
  opt_headers options = HeadersMissing ->
  exists cfg,
    request fetch endpoint options w = send fetch (API_BASE_URL +:+ endpoint) cfg w
    /\ cfg_method cfg = opt_method options
    /\ cfg_body cfg = opt_body options.
Proof.
  intros Hh. rewrite request_runs. simpl. rewrite Hh.
  destruct (truthy (token w)); by eexists.
Qed.

(** What [login] does with the outcome of its request. *)
Lemma login_runs fetch JSON_stringify username password w :
  login fetch JSON_stringify username password w =
  match request fetch "/auth/login"
          (with_method_body "POST"
             (JSON_stringify (JObj [("username", username); ("password", password)]))) w
  with
  | (Ok data, w1) =>
      match data with
      | JUndefined =>
          (Throw (TypeError "Cannot read properties of undefined (reading 'access_token')"), w1)
      | JNull =>
          (Throw (TypeError "Cannot read properties of null (reading 'access_token')"), w1)
      | JObj props =>
          let access_token := default JUndefined (own_property "access_token" props) in
          if truthy access_token
          then (Ok data, snd (setToken access_token w1))
          else (Ok data, w1)
      | _ => (Ok data, w1)
      end
  | (Throw e, w1) => (Throw e, w1)
  end.
Proof.
  unfold login, bind.
  destruct (request _ _ _ _) as [[data | e] w1]; [| done].
  destruct data; try done.
  unfold get_access_token, ret.
  destruct (truthy _); [| done].
  by rewrite setToken_runs.
Qed.

(** The body [null] has no properties to read: [login] raises. *)
Example login_null_body :
  fst (login (backend_replies {| status := 200; json := Some JNull |})
         (fun _ => "{}") (JStr "a") (JStr "bad") (constructor ∅))
  = Throw (TypeError "Cannot read properties of null (reading 'access_token')").
Proof. reflexivity. Qed.

(** A success response whose body is an object without [access_token]. *)
Lemma login_returns_body fetch JSON_stringify username password w r props :
  (forall cfg, fetch (API_BASE_URL +:+ "/auth/login") cfg = Resolved r) ->
  ok r = true ->
  json r = Some (JObj props) ->
  own_property "access_token" props = None ->
  let (res, w') := login fetch JSON_stringify username password w in
  res = Ok (JObj props) /\ same_session w w'.
Proof.
  intros Hall Hok Hj Hnone. rewrite login_runs.
  destruct (request_catalogue fetch "/auth/login"
              (with_method_body "POST"
                 (JSON_stringify (JObj [("username", username); ("password", password)]))) w)
    as (cfg & -> & _); [done |].
  rewrite send_runs, Hall, Hok, Hj. cbv zeta. by rewrite Hnone.
Qed.






(** *** [getUsers] and the query string *)


(** The loop over the entries keeps the filter values, in order. *)
Lemma query_loop params (acc : URLSearchParams) :
  fold_left (fun queryParams entry =>
               let '(key, v) := entry in
               if is_filter_value v
               then URLSearchParams_append queryParams key (ToString v)
               else queryParams)
            params acc
  = acc ++ map (fun e => (e.1, ToString e.2))
               (List.filter (fun e => is_filter_value e.2) params).
Proof.
  revert acc. induction params as [| [key v] params IH]; intros acc; simpl.
  - by rewrite app_nil_r.
  - rewrite IH. destruct (is_filter_value v); simpl; [| done].
    unfold URLSearchParams_append. by rewrite <- app_assoc.
Qed.

Lemma query_of_kept params :
  query_of params
  = map (fun e => (e.1, ToString e.2))
        (List.filter (fun e => is_filter_value e.2) params).
Proof. unfold query_of. by rewrite query_loop. Qed.




(** *** The session and the operations *)


(** *** The empty string as a token *)

(** C10, as stated, fails for a caller who supplies an [Authorization] header
    of their own: after [setToken('')] the request still carries it. *)
Lemma empty_token_keeps_caller_Authorization :
  let options := {| opt_method := None; opt_body := None;
                    opt_headers := HeadersObject {[ "Authorization" := "Basic Zm9v" ]} |} in
  let w1 := snd (setToken (JStr "") (constructor {[ "authToken" := "abc" ]})) in
  let w2 := snd (request (backend_down "offline") "/auth/me" options w1) in
  ~ Forall (fun call => Authorization_of (snd call) = None) (fetch_calls (trace w2)).
Proof.
  simpl. intros H. apply Forall_inv in H. vm_compute in H. discriminate H.
Qed.

Lemma requests_session fetch reqs w :
  same_session w (requests fetch reqs w).
Proof.
  revert w. induction reqs as [| [endpoint options] reqs IH]; intros w; [done |].
  simpl. destruct (IH (snd (request fetch endpoint options w))) as [Ht Hs].
  destruct (request_session fetch endpoint options w) as [Ht' Hs'].
  split; congruence.
Qed.

Lemma requests_falsy_token fetch reqs w :
  truthy (token w) = false ->
  Forall2 (fun req call =>
             fst call = API_BASE_URL +:+ fst req
             /\ Authorization_of (snd call) = caller_Authorization (snd req))
          reqs
          (drop (length (fetch_calls (trace w)))
                (fetch_calls (trace (requests fetch reqs w))))
  /\ take (length (fetch_calls (trace w))) (fetch_calls (trace (requests fetch reqs w)))
     = fetch_calls (trace w).
Proof.
  revert w. induction reqs as [| [endpoint options] reqs IH]; intros w Ht.
  - simpl. rewrite drop_all, firstn_all. by split; [constructor |].
  - simpl.
    destruct (request_observed fetch endpoint options w)
      as (cfg & rest & Hw & Hrest & _ & _ & Hcfg); [done |].
    rewrite Ht in Hcfg.
    destruct (IH (snd (request fetch endpoint options w))) as [IH1 IH2].
    { destruct (request_session fetch endpoint options w) as [-> _]. done. }
    rewrite Hw in IH1, IH2. rewrite Hw. clear Hw.
    rewrite observed_fetch_calls in IH1, IH2 by done.
    set (calls := fetch_calls (trace (requests fetch reqs _))) in *.
    set (old := fetch_calls (trace w)) in *.
    rewrite length_app in IH1, IH2. simpl in IH1, IH2.
    assert (Hcalls : calls = (old ++ [(API_BASE_URL +:+ endpoint, cfg)])
                             ++ drop (length old + 1) calls).
    { rewrite <- IH2 at 1. by rewrite take_drop. }
    split.
    + rewrite Hcalls at 1. rewrite <- app_assoc, drop_app_length. simpl.
      constructor; [| done]. split; [done |]. simpl.
      unfold Authorization_of, caller_Authorization. rewrite Hcfg. simpl.
      unfold merged_headers. by destruct (opt_headers options).
    + rewrite Hcalls. rewrite <- app_assoc. by rewrite take_app_length.
Qed.

Lemma requests_by_reference_falsy fetch reqs objects w :
  truthy (token w) = false ->
  requests_by_reference fetch reqs objects w
  = (objects, requests fetch (map (fun req => (req.1, options_at objects req.2)) reqs) w).
Proof.
  revert w. induction reqs as [| [endpoint o] reqs IH]; intros w Ht; [done |].
  cbn [requests_by_reference map requests fst snd].
  unfold request_by_reference. rewrite Ht.
  pose proof (request_session fetch endpoint (options_at objects o) w) as [Hs _].
  destruct (request fetch endpoint (options_at objects o) w) as [res w'].
  cbn [snd] in Hs |- *. rewrite <- Hs in Ht.
  destruct (ref_headers o); by apply IH.
Qed.

(** The bearer value an authenticated request wrote into the caller's object
    is sent again by a request that reuses the object after
    [setToken('')]. *)
Example empty_token_resends_written_bearer :
  let o := {| ref_method := None; ref_body := None; ref_headers := RefObject 0 |} in
  let w := constructor {[ "authToken" := "abc" ]} in
  let '(_, objects, w1) := request_by_reference (backend_down "offline") "/auth/me" o
                             {[ 0%nat := ∅ ]} w in
  let w2 := snd (setToken (JStr "") w1) in
  let '(_, _, w3) := request_by_reference (backend_down "offline") "/auth/me" o
                       objects w2 in
  objects !! 0%nat = Some {[ "Authorization" := "Bearer abc" ]}
  /\ (Authorization_of ∘ snd) <$> fetch_calls (trace w3)
     = [Some "Bearer abc"; Some "Bearer abc"].
Proof. vm_compute. split; reflexivity. Qed.

(** C10 (amended): after [setToken('')] the field holds the empty string and
    the storage entry is removed; every request built from then on reaches
    [fetch] with the [Authorization] entry that its caller's headers object
    holds when the call is made (put there by the caller, or written into
    that object by an earlier authenticated request) and no other, none at
    all when the object has none or no headers are passed; and [request]
    writes nothing into the callers' objects. *)
Theorem setToken_empty_string_is_anonymous fetch w objects reqs :
  let w1 := snd (setToken (JStr "") w) in
  token w1 = JStr ""
  /\ localStorage w1 !! "authToken" = None
  /\ let (objects', w2) := requests_by_reference fetch reqs objects w1 in
     objects' = objects
     /\ exists calls,
          fetch_calls (trace w2) = fetch_calls (trace w) ++ calls
          /\ Forall2 (fun req call =>
                        fst call = API_BASE_URL +:+ fst req
                        /\ Authorization_of (snd call)
                           = caller_Authorization (options_at objects (snd req)))
                     reqs calls.
Proof.
  rewrite setToken_runs. simpl. split; [done |]. split; [apply lookup_delete_eq |].
  set (w1 := {| token := JStr ""; localStorage := _; trace := trace w |}).
  rewrite requests_by_reference_falsy by done. split; [done |].
  set (plain := map (fun req => (req.1, options_at objects req.2)) reqs).
  destruct (requests_falsy_token fetch plain w1) as [H1 H2]; [done |].
  exists (drop (length (fetch_calls (trace w))) (fetch_calls (trace (requests fetch plain w1)))).
  split.
  - change (trace w1) with (trace w) in H2.
    etrans; [symmetry; apply (take_drop (length (fetch_calls (trace w)))) |].
    by rewrite H2.
  - change (trace w1) with (trace w) in H1. unfold plain in H1.
    apply Forall2_fmap_l in H1. exact H1.
Qed.

(** *** [deleteUser] *)



Example deleteUser_42 :
  let w := constructor {[ "authToken" := "abc" ]} in
  let backend := backend_replies {| status := 200; json := Some JNull |} in
  exists cfg,
    fetch_calls (trace (snd (deleteUser backend (JNum 42) w))) = [("/api/users/42", cfg)]
    /\ cfg_method cfg = Some "DELETE" /\ cfg_body cfg = None
    /\ Authorization_of cfg = Some "Bearer abc".
Proof. simpl. eexists. split; [reflexivity |]. by vm_compute. Qed.

(** ** Further properties of the service *)

(** *** The outcomes of [request] *)

Lemma console_errors_app tr1 tr2 :
  console_errors (tr1 ++ tr2) = console_errors tr1 ++ console_errors tr2.
Proof. apply omap_app. Qed.

(** The events a request adds to the trace, by outcome. *)
Lemma request_trace fetch endpoint options w :
  let (res, w') := request fetch endpoint options w in
  same_session w w'
  /\ ((exists m, res = Throw (TypeError m) /\ trace w' = trace w
                 /\ truthy (token w) = true /\ opt_headers options = HeadersNullish)
      \/ exists cfg,
           let call := EvFetch (API_BASE_URL +:+ endpoint) cfg in
           (opt_headers options = HeadersNullish -> truthy (token w) = false)
           /\
           match fetch (API_BASE_URL +:+ endpoint) cfg with
           | Rejected cause =>
               res = Throw (NetworkError cause)
               /\ trace w' = trace w ++ [call; EvConsoleError (NetworkError cause)]
           | Resolved r =>
               if ok r then
                 match json r with
                 | Some v => res = Ok v /\ trace w' = trace w ++ [call; EvJson r]
                 | None => res = Throw SyntaxError
                           /\ trace w' = trace w ++ [call; EvJson r; EvConsoleError SyntaxError]
                 end
               else
                 let e := Error ("HTTP error! status: " +:+ pretty (status r)) in
                 res = Throw e /\ trace w' = trace w ++ [call; EvConsoleError e]
           end).
Proof.
  pose proof (request_session fetch endpoint options w) as Hs.
  revert Hs. rewrite request_runs. cbv zeta.
  assert (Hsend : forall cfg,
            (opt_headers options = HeadersNullish -> truthy (token w) = false) ->
            same_session w (snd (send fetch (API_BASE_URL +:+ endpoint) cfg w)) ->
            let (res, w') := send fetch (API_BASE_URL +:+ endpoint) cfg w in
            same_session w w'
            /\ ((exists m, res = Throw (TypeError m) /\ trace w' = trace w
                           /\ truthy (token w) = true
                           /\ opt_headers options = HeadersNullish)
                \/ exists cfg0,
                     let call := EvFetch (API_BASE_URL +:+ endpoint) cfg0 in
                     (opt_headers options = HeadersNullish -> truthy (token w) = false)
                     /\
                     match fetch (API_BASE_URL +:+ endpoint) cfg0 with
                     | Rejected cause =>
                         res = Throw (NetworkError cause)
                         /\ trace w' = trace w ++ [call; EvConsoleError (NetworkError cause)]
                     | Resolved r =>
                         if ok r then
                           match json r with
                           | Some v => res = Ok v /\ trace w' = trace w ++ [call; EvJson r]
                           | None => res = Throw SyntaxError
                                     /\ trace w' = trace w
                                          ++ [call; EvJson r; EvConsoleError SyntaxError]
                           end
                         else
                           let e := Error ("HTTP error! status: " +:+ pretty (status r)) in
                           res = Throw e /\ trace w' = trace w ++ [call; EvConsoleError e]
                     end)).
  { intros cfg Hreach Hs. rewrite send_runs in Hs |- *.
    destruct (fetch (API_BASE_URL +:+ endpoint) cfg) as [cause | r] eqn:Hf.
    - split; [done |]. right. exists cfg. by rewrite Hf.
    - destruct (ok r) eqn:Hok.
      + destruct (json r) as [v |] eqn:Hj; (split; [done |]); right; exists cfg;
          by rewrite Hf, Hok, Hj.
      + split; [done |]. right. exists cfg. by rewrite Hf, Hok. }
  destruct (truthy (token w)) eqn:Ht; [| by apply Hsend].
  destruct (cfg_headers _) as [h |] eqn:Hc.
  { apply Hsend. intros Hn. simpl in Hc. by rewrite Hn in Hc. }
  intros _. split; [done |]. left. eexists. repeat split.
  simpl in Hc. by destruct (opt_headers options).
Qed.



(** X2: an error thrown by [request] was written to the console exactly once,
    as it is, before being rethrown; the one exception is the [TypeError] of
    the header assignment, raised before the [try] block, which leaves no
    trace at all. A request that returns writes nothing to the console. *)
Theorem request_logs_what_it_throws fetch endpoint options w :
  let (res, w') := request fetch endpoint options w in
  exists new,
    trace w' = trace w ++ new
    /\ match res with
       | Ok _ => console_errors new = []
       | Throw e =>
           (console_errors new = [e] /\ last new = Some (EvConsoleError e))
           \/ (new = [] /\ truthy (token w) = true
               /\ opt_headers options = HeadersNullish)
       end.
Proof.
  pose proof (request_trace fetch endpoint options w) as H.
  destruct (request fetch endpoint options w) as [res w'].
  destruct H as [_ [(m & -> & Htr & Ht & Hn) | (cfg & H)]].
  { exists []. rewrite app_nil_r. split; [done |]. by right. }
  cbv zeta in H. destruct H as [_ H].
  destruct (fetch (API_BASE_URL +:+ endpoint) cfg) as [cause | r].
  - destruct H as [-> ->]. eexists. split; [done |]. by left.
  - destruct (ok r).
    + destruct (json r) as [v |]; destruct H as [-> ->]; eexists; (split; [done |]);
        [done | by left].
    + destruct H as [-> ->]. eexists. split; [done |]. by left.
Qed.

(** X3: [request] never retries: whatever the outcome, it calls [fetch] at
    most once and reads at most one body; it calls [fetch] exactly once
    unless the header assignment raised. *)
Theorem request_single_attempt fetch endpoint options w :
  let w' := snd (request fetch endpoint options w) in
  exists new,
    trace w' = trace w ++ new
    /\ (length (fetch_calls new) <= 1)%nat
    /\ (length (json_reads new) <= length (fetch_calls new))%nat
    /\ (length (fetch_calls new) = 0%nat
        <-> truthy (token w) = true /\ opt_headers options = HeadersNullish).
Proof.
  pose proof (request_trace fetch endpoint options w) as H.
  destruct (request fetch endpoint options w) as [res w'].
  destruct H as [_ [(m & -> & Htr & Ht & Hn) | (cfg & H)]].
  { exists []. rewrite app_nil_r. simpl. repeat split; try done; lia. }
  cbv zeta in H. destruct H as [Hreach H]. simpl.
  assert (Hno : ~ (truthy (token w) = true /\ opt_headers options = HeadersNullish)).
  { intros [Ht Hn]. rewrite (Hreach Hn) in Ht. discriminate Ht. }
  destruct (fetch (API_BASE_URL +:+ endpoint) cfg) as [cause | r].
  - destruct H as [-> ->]. eexists. split; [done |]. simpl.
    repeat split; try lia; try done.
  - destruct (ok r).
    + destruct (json r) as [v |]; destruct H as [-> ->]; eexists; (split; [done |]);
        simpl; repeat split; try lia; try done.
    + destruct H as [-> ->]. eexists. split; [done |]. simpl.
      repeat split; try lia; try done.
Qed.

(** X4: with a token in the session and a [headers] option that is present
    but [undefined] or [null], [request] raises a [TypeError] before anything
    is sent: no call of [fetch], nothing on the console, the session as it
    was. *)
Theorem request_nullish_headers_raise fetch endpoint options w :
  truthy (token w) = true ->
  opt_headers options = HeadersNullish ->
  exists m, request fetch endpoint options w = (Throw (TypeError m), w).
Proof.
  intros Ht Hn. rewrite request_runs. simpl. rewrite Ht, Hn. by eexists.
Qed.

Lemma request_nullish_headers_raise_witness :
  exists m,
    request (backend_down "offline") "/auth/me"
      {| opt_method := None; opt_body := None; opt_headers := HeadersNullish |}
      (constructor {[ "authToken" := "abc" ]})
    = (Throw (TypeError m), constructor {[ "authToken" := "abc" ]}).
Proof.
  apply (request_nullish_headers_raise (backend_down "offline") "/auth/me"
           {| opt_method := None; opt_body := None; opt_headers := HeadersNullish |}
           (constructor {[ "authToken" := "abc" ]})); reflexivity.
Defined.

(** X5: a failed connection: when [fetch] rejects, [request] rethrows the
    rejection as it is (no status, no wrapping), after writing it to the
    console; no body is read. *)
Theorem request_rethrows_network_failure fetch endpoint options w cause :
  (opt_headers options = HeadersNullish -> truthy (token w) = false) ->
  (forall cfg, fetch (API_BASE_URL +:+ endpoint) cfg = Rejected cause) ->
  let (res, w') := request fetch endpoint options w in
  res = Throw (NetworkError cause)
  /\ console_errors (trace w') = console_errors (trace w) ++ [NetworkError cause]
  /\ json_reads (trace w') = json_reads (trace w).
Proof.
  intros Hh Hall.
  pose proof (request_trace fetch endpoint options w) as H.
  destruct (request fetch endpoint options w) as [res w'].
  destruct H as [_ [(m & _ & _ & Ht & Hn) | (cfg & H)]].
  { rewrite (Hh Hn) in Ht. discriminate Ht. }
  cbv zeta in H. rewrite Hall in H. destruct H as (_ & -> & ->).
  split; [done |]. rewrite console_errors_app, json_reads_app. simpl.
  by rewrite app_nil_r.
Qed.

Lemma request_rethrows_network_failure_witness :
  let (res, w') := request (backend_down "offline") "/users/" no_options (constructor ∅) in
  res = Throw (NetworkError "offline")
  /\ console_errors (trace w') = [NetworkError "offline"]
  /\ json_reads (trace w') = [].
Proof.
  pose proof (request_rethrows_network_failure (backend_down "offline") "/users/"
                no_options (constructor ∅) "offline") as H.
  destruct (request _ _ _ _) as [res w'].
  apply H.
  - discriminate.
  - reflexivity.
Defined.



(** *** The catalogue of requests *)

Lemma request_issues_one fetch endpoint options w :
  opt_headers options = HeadersMissing ->
  issues_one (request fetch endpoint options) w (API_BASE_URL +:+ endpoint)
    (opt_method options) (opt_body options).
Proof.
  intros Hh.
  destruct (request_observed fetch endpoint options w)
    as (cfg & rest & Hw & Hrest & Hm & Hb & Hcfg); [by rewrite Hh |].
  exists cfg. rewrite Hw. split; [by apply observed_fetch_calls |].
  split; [done |]. split; [done |].
  unfold Content_Type_of, Authorization_of. rewrite Hcfg. simpl. rewrite Hh.
  unfold merged_headers. rewrite Hh.
  destruct (truthy (token w)); simpl.
  - split; [| apply lookup_insert_eq]. by rewrite lookup_insert_ne.
  - done.
Qed.

Lemma login_trace fetch JSON_stringify username password w :
  trace (snd (login fetch JSON_stringify username password w))
  = trace (snd (request fetch "/auth/login"
                  (with_method_body "POST"
                     (JSON_stringify (JObj [("username", username);
                                            ("password", password)]))) w)).
Proof.
  rewrite login_runs. destruct (request _ _ _ _) as [[data | e] w1]; [| done].
  destruct data; try done. cbv zeta. destruct (truthy _); [| done].
  by rewrite setToken_runs.
Qed.

Lemma logout_trace fetch w :
  trace (snd (logout fetch w))
  = trace (snd (request fetch "/auth/logout" (with_method "POST") w)).
Proof.
  rewrite logout_runs. destruct (request _ _ _ _) as [[v | e] w1]; [| done].
  by rewrite setToken_runs.
Qed.

(** X7: the three session operations each hand exactly one request to
    [fetch], with [Content-Type: application/json] and the bearer token held
    when the operation starts: [login] a POST of the serialised
    [{username, password}] to [/api/auth/login], [logout] a POST without body
    to [/api/auth/logout], [getCurrentUser] a request without method (a GET)
    and without body to [/api/auth/me]. *)
Theorem session_operations_requests fetch JSON_stringify w :
  (forall username password,
      issues_one (login fetch JSON_stringify username password) w
        "/api/auth/login" (Some "POST")
        (Some (JSON_stringify (JObj [("username", username); ("password", password)]))))
  /\ issues_one (logout fetch) w "/api/auth/logout" (Some "POST") None
  /\ issues_one (getCurrentUser fetch) w "/api/auth/me" None None.
Proof.
  split; [| split].
  - intros username password. unfold issues_one. rewrite login_trace.
    by apply (request_issues_one fetch "/auth/login").
  - unfold issues_one. rewrite logout_trace.
    by apply (request_issues_one fetch "/auth/logout").
  - by apply (request_issues_one fetch "/auth/me").
Qed.



(** *** [login], [logout] and the requests that follow *)


(** With a non-empty token string in the session a request carries it. *)
Lemma request_with_token fetch endpoint options (t : string) w :
  token w = JStr t ->
  t ≠ "" ->
  opt_headers options ≠ HeadersNullish ->
  exists cfg,
    fetch_calls (trace (snd (request fetch endpoint options w)))
    = fetch_calls (trace w) ++ [(API_BASE_URL +:+ endpoint, cfg)]
    /\ Authorization_of cfg = Some ("Bearer " +:+ t).
Proof.
  intros Ht Hne Hh.
  destruct (request_observed fetch endpoint options w)
    as (cfg & rest & -> & Hrest & _ & _ & Hcfg); [done |].
  exists cfg. split; [by apply observed_fetch_calls |].
  unfold Authorization_of. rewrite Hcfg, Ht.
  apply truthy_JStr in Hne. rewrite Hne. simpl.
  destruct (opt_headers options); [| done |]; simpl; apply lookup_insert_eq.
Qed.

(** Without a truthy token a request carries the caller's [Authorization]
    or none. *)
Lemma request_without_token fetch endpoint options w :
  truthy (token w) = false ->
  exists cfg,
    fetch_calls (trace (snd (request fetch endpoint options w)))
    = fetch_calls (trace w) ++ [(API_BASE_URL +:+ endpoint, cfg)]
    /\ Authorization_of cfg = caller_Authorization options.
Proof.
  intros Ht.
  destruct (request_observed fetch endpoint options w)
    as (cfg & rest & -> & Hrest & _ & _ & Hcfg); [done |].
  exists cfg. split; [by apply observed_fetch_calls |].
  unfold Authorization_of, caller_Authorization. rewrite Hcfg, Ht. simpl.
  unfold merged_headers. by destruct (opt_headers options).
Qed.



(** X10: when the login request fails (no connection, a status outside
    200-299 such as 401, a malformed body), [login] fails with the very error
    of the request and the token and the storage are as before. *)
Theorem login_request_failure_propagates fetch JSON_stringify username password w e :
  fst (request fetch "/auth/login"
         (with_method_body "POST"
            (JSON_stringify (JObj [("username", username); ("password", password)]))) w)
  = Throw e ->
  let (res, w') := login fetch JSON_stringify username password w in
  res = Throw e /\ same_session w w'.
Proof.
  intros He. rewrite login_runs.
  pose proof (request_session fetch "/auth/login"
                (with_method_body "POST"
                   (JSON_stringify (JObj [("username", username); ("password", password)])))
                w) as Hs.
  destruct (request _ _ _ _) as [[data | e'] w1]; simpl in *; [discriminate He |].
  by injection He as ->.
Qed.

Lemma login_request_failure_propagates_witness :
  let r := {| status := 401; json := Some (JObj [("detail", JStr "Unauthorized")]) |} in
  let w := constructor ∅ in
  let (res, w') := login (backend_replies r) (fun _ => "{}") (JStr "a") (JStr "bad") w in
  res = Throw (Error "HTTP error! status: 401") /\ same_session w w'.
Proof.
  apply (login_request_failure_propagates
           (backend_replies
              {| status := 401; json := Some (JObj [("detail", JStr "Unauthorized")]) |})
           (fun _ => "{}") (JStr "a") (JStr "bad") (constructor ∅)
           (Error "HTTP error! status: 401")).
  reflexivity.
Defined.





(** X13: after a [logout] that completed, a service constructed afresh over
    the storage starts without a token, and the next request carries the
    [Authorization] entry its caller's headers object holds when the call is
    made (the caller's own, or one an earlier authenticated request wrote
    into that object) and no other; the request writes nothing into the
    object. *)
Theorem logout_then_request_is_anonymous fetch w endpoint o objects :
  fst (logout fetch w) = Ok tt ->
  let w1 := snd (logout fetch w) in
  token (constructor (localStorage w1)) = JNull
  /\ let '(_, objects', w2) := request_by_reference fetch endpoint o objects w1 in
     objects' = objects
     /\ exists cfg,
          fetch_calls (trace w2)
          = fetch_calls (trace w1) ++ [(API_BASE_URL +:+ endpoint, cfg)]
          /\ Authorization_of cfg = caller_Authorization (options_at objects o).
Proof.
  rewrite logout_runs.
  destruct (request fetch "/auth/logout" (with_method "POST") w) as [[v | e] w0];
    [| discriminate].
  rewrite setToken_runs. simpl. intros _. split.
  { unfold localStorage_getItem. by rewrite lookup_delete_eq. }
  set (w1 := {| token := JNull; localStorage := _; trace := trace w0 |}).
  unfold request_by_reference.
  pose proof (request_without_token fetch endpoint (options_at objects o) w1 eq_refl) as H.
  destruct (request fetch endpoint (options_at objects o) w1) as [res w2].
  split; [by destruct (ref_headers o) | exact H].
Qed.

Lemma logout_then_request_is_anonymous_witness :
  let backend := backend_replies {| status := 200; json := Some JNull |} in
  let o := {| ref_method := None; ref_body := None; ref_headers := RefObject 0 |} in
  let w1 := snd (logout backend (constructor {[ "authToken" := "abc" ]})) in
  token (constructor (localStorage w1)) = JNull
  /\ let '(_, objects', w2) := request_by_reference backend "/auth/me" o
                                 {[ 0%nat := {[ "X-Request-Id" := "7" ]} ]} w1 in
     objects' = {[ 0%nat := {[ "X-Request-Id" := "7" ]} ]}
     /\ exists cfg,
          fetch_calls (trace w2)
          = fetch_calls (trace w1) ++ [(API_BASE_URL +:+ "/auth/me", cfg)]
          /\ Authorization_of cfg
             = caller_Authorization
                 (options_at {[ 0%nat := {[ "X-Request-Id" := "7" ]} ]} o).
Proof.
  apply (logout_then_request_is_anonymous
           (backend_replies {| status := 200; json := Some JNull |})
           (constructor {[ "authToken" := "abc" ]}) "/auth/me"
           {| ref_method := None; ref_body := None; ref_headers := RefObject 0 |}
           {[ 0%nat := {[ "X-Request-Id" := "7" ]} ]}).
  reflexivity.
Defined.

(** *** The token and the storage *)

(** X14: [setToken] makes no request and writes nothing to the console, always
    assigns the field, and of the storage touches the [authToken] entry
    only. It completes unless the storage refuses the write: then it throws
    the storage's error after the field was assigned, and the storage is as
    it was. *)
Theorem setToken_touches_authToken_only has_room QuotaExceededError t w :
  let (res, w') := setToken_within has_room QuotaExceededError t w in
  trace w' = trace w
  /\ token w' = t
  /\ (forall k, k ≠ "authToken" -> localStorage w' !! k = localStorage w !! k)
  /\ (res = Ok tt
      \/ (res = Throw QuotaExceededError
          /\ truthy t = true
          /\ has_room (<[ "authToken" := ToString t ]> (localStorage w)) = false
          /\ localStorage w' = localStorage w)).
Proof.
  rewrite setToken_within_runs.
  destruct (truthy t).
  - destruct (has_room _) eqn:Hroom; simpl.
    + repeat split; [| by left]. intros k Hk. by rewrite lookup_insert_ne.
    + repeat split; by right.
  - simpl. repeat split; [| by left]. intros k Hk. by rewrite lookup_delete_ne.
Qed.

Lemma setToken_touches_authToken_only_witness :
  let (res, w') := setToken_within (fun _ => true) (Error "QuotaExceededError")
                     (JStr "abc") (constructor {[ "theme" := "dark" ]}) in
  token w' = JStr "abc" /\ localStorage w' !! "theme" = Some "dark".
Proof.
  pose proof (setToken_touches_authToken_only (fun _ => true)
                (Error "QuotaExceededError") (JStr "abc")
                (constructor {[ "theme" := "dark" ]})) as H.
  destruct (setToken_within _ _ _ _) as [res w']. destruct H as (_ & Ht & Hk & _).
  split; [exact Ht |]. rewrite (Hk "theme"); [reflexivity | discriminate].
Defined.


(** X16: a service constructed over a storage authenticates its requests
    exactly when the storage holds a non-empty [authToken]: the first request
    then carries [Authorization: Bearer] followed by the stored string;
    without the entry, or with an empty one, it carries only the
    [Authorization] header of its caller, if any. *)
Theorem constructor_restores_session fetch (st : gmap string string) endpoint options :
  opt_headers options ≠ HeadersNullish ->
  exists cfg,
    fetch_calls (trace (snd (request fetch endpoint options (constructor st))))
    = [(API_BASE_URL +:+ endpoint, cfg)]
    /\ Authorization_of cfg
       = match st !! "authToken" with
         | Some s => if String.eqb s "" then caller_Authorization options
                     else Some ("Bearer " +:+ s)
         | None => caller_Authorization options
         end.
Proof.
  intros Hh.
  destruct (st !! "authToken") as [s |] eqn:Hst.
  - destruct (String.eqb s "") eqn:Hs.
    + destruct (request_without_token fetch endpoint options (constructor st))
        as (cfg & Hc & Ha).
      { simpl. unfold localStorage_getItem. rewrite Hst. simpl. by rewrite Hs. }
      by exists cfg.
    + destruct (request_with_token fetch endpoint options s (constructor st))
        as (cfg & Hc & Ha); try done.
      { simpl. unfold localStorage_getItem. by rewrite Hst. }
      { by apply String.eqb_neq. }
      by exists cfg.
  - destruct (request_without_token fetch endpoint options (constructor st))
      as (cfg & Hc & Ha).
    { simpl. unfold localStorage_getItem. by rewrite Hst. }
    by exists cfg.
Qed.

Lemma constructor_restores_session_witness :
  exists cfg,
    fetch_calls (trace (snd (request (backend_down "offline") "/auth/me" no_options
                               (constructor {[ "authToken" := "abc" ]}))))
    = [(API_BASE_URL +:+ "/auth/me", cfg)]
    /\ Authorization_of cfg = Some "Bearer abc".
Proof.
  destruct (constructor_restores_session (backend_down "offline")
              {[ "authToken" := "abc" ]} "/auth/me" no_options) as (cfg & Hc & Ha).
  - discriminate.
  - exists cfg. split; [exact Hc |]. rewrite Ha. reflexivity.
Defined.

(** *** The query of [getUsers] *)

(** X17: when every filter value is [null], [undefined] or the empty string
    (in particular for no filter at all), [getUsers] requests exactly
    [/api/users/?], with an empty query. *)
Theorem getUsers_without_filter_values fetch params w :
  Forall (fun e => is_filter_value e.2 = false) params ->
  exists cfg,
    fetch_calls (trace (snd (getUsers fetch params w)))
    = fetch_calls (trace w) ++ [("/api/users/?", cfg)].
Proof.
  intros Hall. unfold getUsers.
  assert (Hq : query_of params = []).
  { rewrite query_of_kept.
    induction Hall as [| e l He _ IH]; [done |]. simpl. by rewrite He. }
  rewrite Hq.
  destruct (request_observed fetch ("/users/?" +:+ URLSearchParams_toString [])
              no_options w) as (cfg & rest & -> & Hrest & _); [done |].
  exists cfg. by apply observed_fetch_calls.
Qed.

Lemma getUsers_without_filter_values_witness :
  exists cfg,
    fetch_calls (trace (snd (getUsers (backend_down "offline")
                               [("is_active", JStr ""); ("role", JNull)] (constructor ∅))))
    = fetch_calls (trace (constructor ∅)) ++ [("/api/users/?", cfg)].
Proof.
  apply (getUsers_without_filter_values (backend_down "offline")
           [("is_active", JStr ""); ("role", JNull)] (constructor ∅)).
  repeat constructor.
Defined.

Lemma count_char_app c s1 s2 :
  count_char c (s1 +:+ s2) = (count_char c s1 + count_char c s2)%nat.
Proof.
  induction s1 as [| a s1 IH]; [done |].
  change (String a s1 +:+ s2) with (String a (s1 +:+ s2)).
  simpl. rewrite IH. lia.
Qed.

Lemma urlencoded_char_separators (a : ascii) :
  let chunk := if Ascii.eqb a " " then "+"
               else if urlencoded_safe a then String a ""
               else percent_encode a in
  count_char "&" chunk = 0%nat /\ count_char "=" chunk = 0%nat.
Proof.
  destruct a as [[] [] [] [] [] [] [] []]; vm_compute; done.
Qed.

Lemma urlencoded_string_separators s :
  count_char "&" (urlencoded_string s) = 0%nat
  /\ count_char "=" (urlencoded_string s) = 0%nat.
Proof.
  induction s as [| a s [IH1 IH2]]; [done |].
  change (urlencoded_string (String a s))
    with ((if Ascii.eqb a " " then "+"
           else if urlencoded_safe a then String a ""
           else percent_encode a) +:+ urlencoded_string s).
  rewrite !count_char_app, IH1, IH2.
  destruct (urlencoded_char_separators a) as [-> ->]. done.
Qed.

Lemma join_separators (ss : list string) :
  Forall (fun s => count_char "&" s = 0%nat /\ count_char "=" s = 1%nat) ss ->
  count_char "=" (join "&" ss) = length ss
  /\ count_char "&" (join "&" ss) = (length ss - 1)%nat.
Proof.
  unfold join. induction 1 as [| s ss [Hs1 Hs2] Hss [IH1 IH2]]; [done |].
  destruct ss as [| s' ss'].
  - simpl. by rewrite Hs1, Hs2.
  - change (String.concat "&" (s :: s' :: ss'))
      with (s +:+ "&" +:+ String.concat "&" (s' :: ss')).
    rewrite !count_char_app, IH1, IH2, Hs1, Hs2. simpl. split; lia.
Qed.

(** X18: no key and no value can add or split a parameter: in the query
    string of [getUsers] the [=] signs are as many as the entries kept and
    the [&] signs one fewer (none for an empty query), whatever characters
    the keys and the values contain. *)
Theorem getUsers_query_separators params :
  let kept := List.filter (fun e => is_filter_value e.2) params in
  let query := URLSearchParams_toString (query_of params) in
  count_char "=" query = length kept
  /\ count_char "&" query = (length kept - 1)%nat.
Proof.
  cbv zeta. unfold URLSearchParams_toString. rewrite query_of_kept, map_map.
  rewrite <- (length_map (fun e : string * value =>
                           urlencoded_string e.1 +:+ "=" +:+ urlencoded_string (ToString e.2))
                        (List.filter (fun e => is_filter_value e.2) params)).
  apply join_separators. apply Forall_map, Forall_forall. intros e _. simpl.
  destruct (urlencoded_string_separators e.1) as [Hk1 Hk2].
  destruct (urlencoded_string_separators (ToString e.2)) as [Hv1 Hv2].
  rewrite !count_char_app, Hk1, Hk2, Hv1, Hv2. done.
Qed.

(** ** Properties of the components *)

Ltac run_H :=
  unfold try_catch_finally, call, set_state, show, of_result,
    mbind, mret, H_bind, H_ret; simpl.

Lemma own_property_set k k' v props :
  own_property k (set_property k' v props)
  = if String.eqb k k' then Some v else own_property k props.
Proof.
  induction props as [| [k0 v0] props IH]; simpl.
  - by destruct (String.eqb k k').
  - destruct (String.eqb k' k0) eqn:E0; simpl.
    + apply String.eqb_eq in E0 as ->. by destruct (String.eqb k k0).
    + destruct (String.eqb k k0) eqn:E1; [| exact IH].
      apply String.eqb_eq in E1 as ->.
      destruct (String.eqb k0 k') eqn:E2; [| done].
      apply String.eqb_eq in E2 as ->. by rewrite String.eqb_refl in E0.
Qed.

Lemma own_property_In k v props :
  own_property k props = Some v -> In (k, v) props.
Proof.
  induction props as [| [k0 v0] props IH]; simpl; [done |].
  destruct (String.eqb k k0) eqn:E.
  - apply String.eqb_eq in E as ->. intros [= ->]. by left.
  - intros Hp. right. by apply IH.
Qed.

Lemma query_of_In k v params :
  In (k, v) params -> is_filter_value v = true -> In (k, ToString v) (query_of params).
Proof.
  intros Hin Hv. rewrite query_of_kept.
  apply (in_map (fun e : string * value => (e.1, ToString e.2)) _ (k, v)).
  apply filter_In. by split.
Qed.

(** *** [UserList] *)

Lemma handleFilterChange_offset key v st :
  own_property "offset" (UserList.filters (UserList.handleFilterChange key v st))
  = Some (JNum 0).
Proof. simpl. by rewrite own_property_set. Qed.

(** X19: changing a filter sets the chosen key and puts [offset] back to 0,
    also when the key changed is [offset] itself; every other filter, the
    list, the error and the loading flag stay as they are. *)
Theorem UserList_handleFilterChange_resets_offset key v st :
  let st' := UserList.handleFilterChange key v st in
  own_property "offset" (UserList.filters st') = Some (JNum 0)
  /\ (key ≠ "offset" -> own_property key (UserList.filters st') = Some v)
  /\ (forall k, k ≠ key -> k ≠ "offset" ->
        own_property k (UserList.filters st') = own_property k (UserList.filters st))
  /\ UserList.users st' = UserList.users st
  /\ UserList.loading st' = UserList.loading st
  /\ UserList.error st' = UserList.error st.
Proof.
  simpl. split; [by rewrite own_property_set |]. split; [| split; [| done]].
  - intros Hk. apply String.eqb_neq in Hk.
    by rewrite !own_property_set, Hk, String.eqb_refl.
  - intros k Hk Ho. apply String.eqb_neq in Hk, Ho.
    by rewrite !own_property_set, Ho, Hk.
Qed.

Lemma UserList_handleFilterChange_resets_offset_witness :
  let st := UserList.setFilters (set_property "offset" (JNum 100)) UserList.initial in
  let st' := UserList.handleFilterChange "role" (JStr "ADMIN") st in
  own_property "offset" (UserList.filters st') = Some (JNum 0)
  /\ own_property "role" (UserList.filters st') = Some (JStr "ADMIN")
  /\ own_property "limit" (UserList.filters st') = Some (JNum 50).
Proof.
  destruct (UserList_handleFilterChange_resets_offset "role" (JStr "ADMIN")
              (UserList.setFilters (set_property "offset" (JNum 100)) UserList.initial))
    as (Ho & Hk & Hother & _).
  split; [exact Ho |]. split.
  - apply Hk. discriminate.
  - rewrite (Hother "limit"); [reflexivity | discriminate | discriminate].
Defined.

(** X20: the listing that follows a filter change starts from the first
    page: the query built from the changed filters contains [offset=0]. *)
Theorem UserList_filter_change_restarts_paging key v st :
  In ("offset", "0")
     (query_of (UserList.filters (UserList.handleFilterChange key v st))).
Proof.
  apply (query_of_In "offset" (JNum 0)); [| done].
  apply own_property_In.
  apply handleFilterChange_offset.
Qed.

(** An error thrown by a request of the catalogue was written to the
    console by [request]. *)
Lemma request_throw_logged fetch endpoint options w e :
  opt_headers options = HeadersMissing ->
  fst (request fetch endpoint options w) = Throw e ->
  console_errors (trace (snd (request fetch endpoint options w)))
  = console_errors (trace w) ++ [e].
Proof.
  intros Hh He.
  pose proof (request_trace fetch endpoint options w) as H.
  destruct (request fetch endpoint options w) as [res w']. simpl in *. subst res.
  destruct H as [_ [(m & _ & _ & _ & Hn) | (cfg & H)]]; [congruence |].
  cbv zeta in H. destruct H as [_ H].
  destruct (fetch (API_BASE_URL +:+ endpoint) cfg) as [cause | r].
  - destruct H as [[= <-] ->]. rewrite console_errors_app. done.
  - destruct (ok r).
    + destruct (json r) as [v |]; destruct H as [[= <-] ->].
      rewrite console_errors_app. done.
    + destruct H as [[= <-] ->]. rewrite console_errors_app. done.
Qed.

Lemma loadUsers_runs fetch (p : page UserList.state) :
  UserList.loadUsers fetch p =
  let st1 := UserList.setLoading true (comp p) in
  let failed err w1 :=
    (Ok tt,
     {| comp := UserList.setLoading false (UserList.setError "Failed to load users" st1);
        shown := shown p;
        svc := snd (console_error err w1) |}) in
  match getUsers fetch (UserList.filters (comp p)) (svc p) with
  | (Ok data, w1) =>
      match get_property "users" data with
      | Ok listed =>
          (Ok tt,
           {| comp := UserList.setLoading false (UserList.setUsers listed st1);
              shown := shown p; svc := w1 |})
      | Throw err => failed err w1
      end
  | (Throw err, w1) => failed err w1
  end.
Proof.
  unfold UserList.loadUsers. run_H.
  destruct (getUsers fetch (UserList.filters (comp p)) (svc p)) as [[data | err] w1];
    simpl; [| done].
  by destruct (get_property "users" data).
Qed.


(** X22: when the listing request fails, [loadUsers] shows
    [Failed to load users], keeps the users it had, and the error is on the
    console twice: once written by [request], once by the component. *)
Theorem UserList_loadUsers_failure fetch (p : page UserList.state) e :
  fst (getUsers fetch (UserList.filters (comp p)) (svc p)) = Throw e ->
  let p' := snd (UserList.loadUsers fetch p) in
  UserList.error (comp p') = "Failed to load users"
  /\ UserList.users (comp p') = UserList.users (comp p)
  /\ console_errors (trace (svc p')) = console_errors (trace (svc p)) ++ [e; e].
Proof.
  intros He. rewrite loadUsers_runs. cbv zeta.
  pose proof (request_throw_logged fetch
                ("/users/?" +:+ URLSearchParams_toString (query_of (UserList.filters (comp p))))
                no_options (svc p) e eq_refl He) as Hlog.
  change (request fetch _ no_options (svc p))
    with (getUsers fetch (UserList.filters (comp p)) (svc p)) in Hlog.
  destruct (getUsers fetch (UserList.filters (comp p)) (svc p)) as [[data | err] w1];
    simpl in *; [discriminate He |].
  injection He as ->. split; [done |]. split; [done |].
  rewrite console_errors_app, Hlog, <- app_assoc. done.
Qed.

Lemma UserList_loadUsers_failure_witness :
  let p := {| comp := UserList.initial; shown := []; svc := constructor ∅ |} in
  let p' := snd (UserList.loadUsers (backend_down "offline") p) in
  UserList.error (comp p') = "Failed to load users"
  /\ UserList.users (comp p') = JArr []
  /\ console_errors (trace (svc p')) = [NetworkError "offline"; NetworkError "offline"].
Proof.
  apply (UserList_loadUsers_failure (backend_down "offline")
           {| comp := UserList.initial; shown := []; svc := constructor ∅ |}
           (NetworkError "offline")).
  reflexivity.
Defined.

(** X23: when the listing request succeeds, the users become the [users]
    property of the body (also when the body has none: they become
    [undefined]), and an error shown before is not cleared; a body that is
    [null] counts as a failure. *)
Theorem UserList_loadUsers_success fetch (p : page UserList.state) data :
  fst (getUsers fetch (UserList.filters (comp p)) (svc p)) = Ok data ->
  let p' := snd (UserList.loadUsers fetch p) in
  match data with
  | JNull | JUndefined =>
      UserList.error (comp p') = "Failed to load users"
      /\ UserList.users (comp p') = UserList.users (comp p)
  | JObj props =>
      UserList.users (comp p') = default JUndefined (own_property "users" props)
      /\ UserList.error (comp p') = UserList.error (comp p)
  | _ =>
      UserList.users (comp p') = JUndefined
      /\ UserList.error (comp p') = UserList.error (comp p)
  end.
Proof.
  intros Hd. rewrite loadUsers_runs. cbv zeta.
  destruct (getUsers fetch (UserList.filters (comp p)) (svc p)) as [[data' | err] w1];
    simpl in *; [| discriminate Hd].
  injection Hd as ->. by destruct data.
Qed.

Lemma UserList_loadUsers_success_witness :
  let r := {| status := 200;
              json := Some (JObj [("users", JArr [JObj [("id", JNum 1)]]); ("total", JNum 1)]) |} in
  let p := {| comp := UserList.setError "Failed to load users" UserList.initial;
              shown := []; svc := constructor ∅ |} in
  let p' := snd (UserList.loadUsers (backend_replies r) p) in
  UserList.users (comp p') = JArr [JObj [("id", JNum 1)]]
  /\ UserList.error (comp p') = "Failed to load users".
Proof.
  apply (UserList_loadUsers_success
           (backend_replies
              {| status := 200;
                 json := Some (JObj [("users", JArr [JObj [("id", JNum 1)]]);
                                     ("total", JNum 1)]) |})
           {| comp := UserList.setError "Failed to load users" UserList.initial;
              shown := []; svc := constructor ∅ |}
           (JObj [("users", JArr [JObj [("id", JNum 1)]]); ("total", JNum 1)])).
  reflexivity.
Defined.

(** *** [UserForm] *)

Lemma UserForm_handleSubmit_runs fetch JSON_stringify syntax_message
    (p : page UserForm.state) :
  UserForm.handleSubmit fetch JSON_stringify syntax_message p =
  let st1 := UserForm.setError "" (UserForm.setLoading true (comp p)) in
  match createUser fetch JSON_stringify (JObj (UserForm.formData (comp p))) (svc p) with
  | (Ok _, w1) =>
      (Ok tt,
       {| comp := UserForm.setLoading false
                    (UserForm.setFormData (fun _ => UserForm.blank) st1);
          shown := shown p ++ [UiCall "onUserCreated"; UiAlert "User created successfully"];
          svc := w1 |})
  | (Throw err, w1) =>
      (Ok tt,
       {| comp := UserForm.setLoading false
                    (UserForm.setError
                       ("Failed to create user: " +:+ message_of syntax_message err) st1);
          shown := shown p;
          svc := w1 |})
  end.
Proof.
  unfold UserForm.handleSubmit. run_H.
  destruct (createUser _ _ _ _) as [[v | err] w1]; simpl; [| done].
  by rewrite <- app_assoc.
Qed.

(** X24: when the creation request fails, [handleSubmit] does not throw; it
    shows [Failed to create user: ] followed by the message of the error (for
    a status outside 200-299, [HTTP error! status: ] and the status), keeps
    what was typed in the form, calls no [onUserCreated], shows no alert and
    ends with the loading flag down. *)
Theorem UserForm_handleSubmit_failure fetch JSON_stringify syntax_message
    (p : page UserForm.state) e :
  fst (createUser fetch JSON_stringify (JObj (UserForm.formData (comp p))) (svc p))
  = Throw e ->
  let (res, p') := UserForm.handleSubmit fetch JSON_stringify syntax_message p in
  res = Ok tt
  /\ UserForm.error (comp p') = "Failed to create user: " +:+ message_of syntax_message e
  /\ UserForm.formData (comp p') = UserForm.formData (comp p)
  /\ UserForm.loading (comp p') = false
  /\ shown p' = shown p.
Proof.
  intros He. rewrite UserForm_handleSubmit_runs. cbv zeta.
  destruct (createUser _ _ _ _) as [[v | err] w1]; simpl in *; [discriminate He |].
  by injection He as ->.
Qed.

Lemma UserForm_handleSubmit_failure_witness :
  let r := {| status := 400; json := Some (JObj [("detail", JStr "exists")]) |} in
  let p := {| comp := UserForm.handleChange "username" "bob" UserForm.initial;
              shown := []; svc := constructor {[ "authToken" := "abc" ]} |} in
  let (res, p') := UserForm.handleSubmit (backend_replies r) (fun _ => "{}") "bad json" p in
  res = Ok tt
  /\ UserForm.error (comp p') = "Failed to create user: HTTP error! status: 400"
  /\ UserForm.formData (comp p') = UserForm.formData (comp p)
  /\ UserForm.loading (comp p') = false
  /\ shown p' = [].
Proof.
  apply (UserForm_handleSubmit_failure
           (backend_replies {| status := 400; json := Some (JObj [("detail", JStr "exists")]) |})
           (fun _ => "{}") "bad json"
           {| comp := UserForm.handleChange "username" "bob" UserForm.initial;
              shown := []; svc := constructor {[ "authToken" := "abc" ]} |}
           (Error "HTTP error! status: 400")).
  reflexivity.
Defined.

(** X25: when the creation request succeeds, [handleSubmit] puts the form
    back to empty name and password and the role [USER], calls
    [onUserCreated] once and then shows the success alert; the error is
    cleared and the loading flag is down. *)
Theorem UserForm_handleSubmit_success fetch JSON_stringify syntax_message
    (p : page UserForm.state) v :
  fst (createUser fetch JSON_stringify (JObj (UserForm.formData (comp p))) (svc p))
  = Ok v ->
  let (res, p') := UserForm.handleSubmit fetch JSON_stringify syntax_message p in
  res = Ok tt
  /\ UserForm.formData (comp p') = UserForm.blank
  /\ UserForm.error (comp p') = ""
  /\ UserForm.loading (comp p') = false
  /\ shown p' = shown p ++ [UiCall "onUserCreated"; UiAlert "User created successfully"].
Proof.
  intros Hv. rewrite UserForm_handleSubmit_runs. cbv zeta.
  destruct (createUser _ _ _ _) as [[v' | err] w1]; simpl in *; [done | discriminate Hv].
Qed.

Lemma UserForm_handleSubmit_success_witness :
  let r := {| status := 201; json := Some (JObj [("id", JNum 7)]) |} in
  let p := {| comp := UserForm.handleChange "username" "bob" UserForm.initial;
              shown := []; svc := constructor {[ "authToken" := "abc" ]} |} in
  let (res, p') := UserForm.handleSubmit (backend_replies r) (fun _ => "{}") "bad json" p in
  res = Ok tt
  /\ UserForm.formData (comp p') = UserForm.blank
  /\ UserForm.error (comp p') = ""
  /\ UserForm.loading (comp p') = false
  /\ shown p' = [UiCall "onUserCreated"; UiAlert "User created successfully"].
Proof.
  apply (UserForm_handleSubmit_success
           (backend_replies {| status := 201; json := Some (JObj [("id", JNum 7)]) |})
           (fun _ => "{}") "bad json"
           {| comp := UserForm.handleChange "username" "bob" UserForm.initial;
              shown := []; svc := constructor {[ "authToken" := "abc" ]} |}
           (JObj [("id", JNum 7)])).
  reflexivity.
Defined.

(** *** [UserActions] *)

(** X26: a deletion the user does not confirm does nothing: no request, no
    change of the component or of the session; only the question was
    asked. *)
Theorem UserActions_handleDelete_declined fetch confirm user (p : page UserActions.state) :
  confirm ("Are you sure you want to delete user "
           +:+ ToString (UserActions.username user) +:+ "?") = false ->
  UserActions.handleDelete fetch confirm user p =
  (Ok tt,
   {| comp := comp p;
      shown := shown p ++ [UiConfirm ("Are you sure you want to delete user "
                                      +:+ ToString (UserActions.username user) +:+ "?")];
      svc := svc p |}).
Proof.
  intros Hc. unfold UserActions.handleDelete. run_H. by rewrite Hc.
Qed.

Lemma UserActions_handleDelete_declined_witness :
  let user := {| UserActions.id := JNum 7; UserActions.username := JStr "bob";
                 UserActions.role := JStr "USER"; UserActions.is_active := JBool true |} in
  let p := {| comp := UserActions.initial user; shown := [];
              svc := constructor {[ "authToken" := "abc" ]} |} in
  UserActions.handleDelete (backend_down "offline") (fun _ => false) user p =
  (Ok tt,
   {| comp := comp p;
      shown := [UiConfirm "Are you sure you want to delete user bob?"];
      svc := svc p |}).
Proof.
  apply (UserActions_handleDelete_declined (backend_down "offline") (fun _ => false)
           {| UserActions.id := JNum 7; UserActions.username := JStr "bob";
              UserActions.role := JStr "USER"; UserActions.is_active := JBool true |}
           {| comp := UserActions.initial
                        {| UserActions.id := JNum 7; UserActions.username := JStr "bob";
                           UserActions.role := JStr "USER";
                           UserActions.is_active := JBool true |};
              shown := []; svc := constructor {[ "authToken" := "abc" ]} |}).
  reflexivity.
Defined.

(** X27: a new password of fewer than six UTF-16 code units (the empty one
    included) never reaches the backend: [handlePasswordChange] only shows
    the alert, and the component and the session stay as they are. *)
Theorem UserActions_handlePasswordChange_too_short fetch JSON_stringify user
    (p : page UserActions.state) :
  (String_length (UserActions.newPassword (comp p)) < 6)%nat ->
  UserActions.handlePasswordChange fetch JSON_stringify user p =
  (Ok tt,
   {| comp := comp p;
      shown := shown p ++ [UiAlert "Password must be at least 6 characters long"];
      svc := svc p |}).
Proof.
  intros Hl. unfold UserActions.handlePasswordChange.
  apply Nat.ltb_lt in Hl. rewrite Hl, orb_true_r. done.
Qed.

Lemma UserActions_handlePasswordChange_too_short_witness :
  let user := {| UserActions.id := JNum 7; UserActions.username := JStr "bob";
                 UserActions.role := JStr "USER"; UserActions.is_active := JBool true |} in
  let p := {| comp := UserActions.setNewPassword "12345" (UserActions.initial user);
              shown := []; svc := constructor {[ "authToken" := "abc" ]} |} in
  UserActions.handlePasswordChange (backend_down "offline") (fun _ => "{}") user p =
  (Ok tt,
   {| comp := comp p;
      shown := [UiAlert "Password must be at least 6 characters long"];
      svc := svc p |}).
Proof.
  apply (UserActions_handlePasswordChange_too_short (backend_down "offline")
           (fun _ => "{}")
           {| UserActions.id := JNum 7; UserActions.username := JStr "bob";
              UserActions.role := JStr "USER"; UserActions.is_active := JBool true |}
           {| comp := UserActions.setNewPassword "12345"
                        (UserActions.initial
                           {| UserActions.id := JNum 7; UserActions.username := JStr "bob";
                              UserActions.role := JStr "USER";
                              UserActions.is_active := JBool true |});
              shown := []; svc := constructor {[ "authToken" := "abc" ]} |}).
  simpl. lia.
Defined.







(** *** [Login] *)

(** X30: [handleSubmit] of the login form calls [onLogin] with the typed
    name and password. When the result has a truthy [success] no error is
    shown; otherwise the error shown is the [error] of the result, or
    [Login failed] when that is missing or falsy; in both cases the loading
    flag ends down. There is no [try] around the call: when [onLogin] throws,
    or returns [null] or [undefined], the handler throws and the loading flag
    stays up. *)
Theorem Login_handleSubmit_outcome onLogin (p : page Login.state) :
  let creds := Login.credentials (comp p) in
  let attempt := onLogin (default JUndefined (own_property "username" creds))
                         (default JUndefined (own_property "password" creds)) (svc p) in
  let (res, p') := Login.handleSubmit onLogin p in
  svc p' = snd attempt
  /\ Login.credentials (comp p') = creds
  /\ match fst attempt with
     | Throw e =>
         res = Throw e
         /\ Login.loading (comp p') = true /\ Login.error (comp p') = JStr ""
     | Ok JNull | Ok JUndefined =>
         (exists m, res = Throw (TypeError m))
         /\ Login.loading (comp p') = true /\ Login.error (comp p') = JStr ""
     | Ok (JObj props) =>
         res = Ok tt
         /\ Login.loading (comp p') = false
         /\ Login.error (comp p')
            = if truthy (default JUndefined (own_property "success" props)) then JStr ""
              else if truthy (default JUndefined (own_property "error" props))
                   then default JUndefined (own_property "error" props)
                   else JStr "Login failed"
     | Ok _ =>
         res = Ok tt
         /\ Login.loading (comp p') = false
         /\ Login.error (comp p') = JStr "Login failed"
     end.
Proof.
  cbv zeta. unfold Login.handleSubmit. run_H.
  destruct (onLogin _ _ _) as [[result | e] w1]; simpl; [| done].
  destruct result as [| | b | n | s | elts | props]; simpl; try done.
  - split; [done |]. split; [done |]. split; [by eexists | done].
  - split; [done |]. split; [done |]. split; [by eexists | done].
  - destruct (truthy (default JUndefined (own_property "success" props))); simpl;
      [done |].
    by destruct (truthy (default JUndefined (own_property "error" props))).
Qed.
